(** * The managed-runtime bridge of FQuake3 (src/C/m/m.c)

    m.c is a forwarding layer between a native engine and the embedded
    Mono runtime.  Its functions are embedded here as computations in a
    small monad [M]: every call into the Mono API is an event answered by
    an abstract runtime [rt], a computation threads the state of the
    process, and a run ends in one of three ways: the function returns,
    [g_error] aborts the process, or a local buffer is overrun.  Each run
    also records the calls it made together with the runtime's answers, so
    that what the bridge forwards, and in which order, can be stated. *)

From Stdlib Require Import ZArith String Ascii List Bool Lia.
From ExtLib Require Import Structures.Monad.
Import ListNotations.
Import MonadNotation.

Local Open Scope Z_scope.
Local Open Scope string_scope.
Local Open Scope monad_scope.

(** ** Pointers, handles and C scalars *)

(** A C pointer is its address; the null pointer is address 0. *)
Definition ptr := Z.
Definition NULL : ptr := 0.

(** [!p] *)
Definition is_null (p : ptr) : bool := Z.eqb p NULL.

Definition gpointer := ptr.
Definition MonoDomain := ptr.
Definition MonoAssembly := ptr.
Definition MonoImage := ptr.
Definition MonoClass := ptr.
Definition MonoType := ptr.
Definition MonoObject := ptr.
Definition MonoMethod := ptr.
Definition MonoMethodDesc := ptr.
Definition MonoProperty := ptr.
Definition MonoClassField := ptr.
Definition MonoArray := ptr.

(** [gint] is a 32-bit two's complement integer; [to_gint] is the
    conversion C applies when a wider unsigned value is returned as [gint]. *)
Definition to_gint (z : Z) : Z := (z + 2 ^ 31) mod 2 ^ 32 - 2 ^ 31.

(** A [gint] handed to a parameter of type [uintptr_t] (64 bits wide on
    the platforms the runtime is built for) is converted modulo 2^64: a
    negative value arrives as 2^64 plus that value. *)
Definition to_uintptr (z : Z) : Z := z mod 2 ^ 64.

(** [MRuntime] is an enum declared in m.h; like every C enum it is an
    integer, and a caller may pass any integer for it. *)
Definition MRuntime := Z.

(** [struct _MDomain { MonoDomain *domain; }].  An [MDomain*] is modelled by
    the struct it points to; [g_malloc0] only provides the storage. *)
Record MDomain := { MDomain_domain : MonoDomain }.

(** [MObject] and [MArray] come from m.h; m.c uses one field of each,
    [__priv], the raw runtime handle. *)
Record MObject := { MObject__priv : gpointer }.
Record MArray := { MArray__priv : gpointer }.

(** [typedef struct { MonoAssembly *assembly; const gchar *name; } MAssemblyQuery] *)
Record MAssemblyQuery := {
  query_assembly : MonoAssembly;
  query_name : string
}.

(** The line feed that ends several diagnostics. *)
Definition nl : string := String (ascii_of_nat 10) EmptyString.

(** ** glib string helpers *)

(** [strcmp] on NUL-terminated strings: the sign of the first difference. *)
Definition strcmp (s1 s2 : string) : Z :=
  match String.compare s1 s2 with
  | Eq => 0
  | Lt => -1
  | Gt => 1
  end.

(** [g_strcmp0]: [strcmp] that accepts null pointers ([None]); a null
    string sorts before every other one and equals only itself. *)
Definition g_strcmp0 (str1 str2 : option string) : Z :=
  match str1, str2 with
  | None, None => 0
  | None, Some _ => -1
  | Some _, None => 1
  | Some s1, Some s2 => strcmp s1 s2
  end.

(** ** The Mono embedding API, as events

    [MonoE X] is a call into the runtime whose answer has type [X].  The
    constructors carry the names and the arguments of the API functions
    m.c calls.  [mono_assembly_loaded] stands for the list of loaded
    assemblies that [mono_assembly_foreach] walks, in the order it visits
    them. *)
Inductive MonoE : Type -> Type :=
| mono_assembly_loaded : MonoE (list MonoAssembly)
| mono_assembly_get_image (assembly : MonoAssembly) : MonoE MonoImage
| mono_image_get_name (image : MonoImage) : MonoE string
| mono_set_dirs (assembly_dir config_dir : string) : MonoE unit
| mono_jit_init_version (root_domain_name version : string) : MonoE MonoDomain
| mono_domain_get : MonoE MonoDomain
| mono_class_from_name (image : MonoImage) (name_space name : string) : MonoE MonoClass
| mono_class_get_type (klass : MonoClass) : MonoE MonoType
| mono_type_is_struct (type : MonoType) : MonoE bool
| mono_class_get_method_from_name (klass : MonoClass) (name : string) (param_count : Z)
    : MonoE MonoMethod
| mono_class_get_property_from_name (klass : MonoClass) (name : string) : MonoE MonoProperty
| mono_class_get_field_from_name (klass : MonoClass) (name : string) : MonoE MonoClassField
| mono_object_new (domain : MonoDomain) (klass : MonoClass) : MonoE MonoObject
| mono_object_get_class (obj : MonoObject) : MonoE MonoClass
| mono_object_unbox (obj : MonoObject) : MonoE gpointer
| mono_runtime_invoke (method : MonoMethod) (obj : gpointer) (params : gpointer)
    (exc : gpointer) : MonoE MonoObject
| mono_property_get_value (prop : MonoProperty) (obj : gpointer) (params : gpointer)
    (exc : gpointer) : MonoE MonoObject
| mono_property_set_value (prop : MonoProperty) (obj : gpointer) (params : list gpointer)
    (exc : gpointer) : MonoE unit
| mono_field_set_value (obj : MonoObject) (field : MonoClassField) (value : gpointer)
    : MonoE unit
| mono_method_desc_new (name : string) (include_namespace : bool) : MonoE MonoMethodDesc
| mono_method_desc_search_in_image (desc : MonoMethodDesc) (image : MonoImage)
    : MonoE MonoMethod
| mono_method_desc_free (desc : MonoMethodDesc) : MonoE unit
| mono_get_int32_class : MonoE MonoClass
| mono_array_new (domain : MonoDomain) (eclass : MonoClass) (n : Z) : MonoE MonoArray
| mono_array_addr_with_size (array : MonoArray) (size index : Z) : MonoE gpointer
| mono_array_length (array : MonoArray) : MonoE Z.

(** One entry of a run's record: the call made and the runtime's answer. *)
Inductive call : Type :=
| Answer {X : Type} (e : MonoE X) (x : X).

Notation "e '~>' x" := (Answer e x) (at level 69, no associativity).

(** ** The monad of bridge computations *)

Section Bridge.

(** The state of the process (runtime heap, metadata, machine state). *)
Context {W : Type}.

(** The embedded runtime: its answer to a call and the state it leaves. *)
Variable rt : forall X : Type, MonoE X -> W -> X * W.

(** The value read from an automatic object that was never written: C
    leaves it indeterminate, the content of the stack decides it. *)
Variable uninit : W -> ptr.

(** The two enumerators of [MRuntime] (m.h). *)
Variables M_RUNTIME_4_0 M_RUNTIME_4_5 : MRuntime.

(** C does not say in which order the arguments of one call are
    evaluated: [true] when the compiler evaluates them right to left. *)
Variable args_right_to_left : bool.

Inductive outcome (A : Type) : Type :=
| Returned (a : A) (w : W) (log : list call)
| Fatal (msg : string) (w : W) (log : list call)
| Overrun (w : W) (log : list call).

Arguments Returned {A} a w log.
Arguments Fatal {A} msg w log.
Arguments Overrun {A} w log.

Definition M (A : Type) : Type := W -> outcome A.

(** [after l o]: outcome [o], reached after the calls [l]. *)
Definition after {A : Type} (l : list call) (o : outcome A) : outcome A :=
  match o with
  | Returned a w log => Returned a w (l ++ log)%list
  | Fatal msg w log => Fatal msg w (l ++ log)%list
  | Overrun w log => Overrun w (l ++ log)%list
  end.

Definition M_ret {A : Type} (a : A) : M A := fun w => Returned a w [].

Definition M_bind {A B : Type} (m : M A) (k : A -> M B) : M B :=
  fun w =>
    match m w with
    | Returned a w1 l1 => after l1 (k a w1)
    | Fatal msg w1 l1 => Fatal msg w1 l1
    | Overrun w1 l1 => Overrun w1 l1
    end.

#[global] Instance Monad_M : Monad M :=
  {| ret := @M_ret; bind := @M_bind |}.

(** A call into the runtime. *)
Definition invoke {X : Type} (e : MonoE X) : M X :=
  fun w => let (x, w1) := rt X e w in Returned x w1 [e ~> x].

(** Reading an indeterminate value. *)
Definition indeterminate : M ptr := fun w => Returned (uninit w) w [].

(** [g_error]: logs the message and aborts the process. *)
Definition g_error {A : Type} (msg : string) : M A := fun w => Fatal msg w [].

(** Writing past the end of an automatic array. *)
Definition overrun {A : Type} : M A := fun w => Overrun w [].

(** [g_sprintf (buf, ...)] where [buf] has room for [size] bytes and the
    formatted text is [text]: the text and its terminating NUL are
    written without any bound. *)
Definition g_sprintf (size : nat) (text : string) : M string :=
  if (String.length text <? size)%nat then ret text else overrun.

(** Observations on outcomes. *)
Definition log_of {A : Type} (o : outcome A) : list call :=
  match o with
  | Returned _ _ log | Fatal _ _ log | Overrun _ log => log
  end.

Definition result_of {A : Type} (o : outcome A) : option A :=
  match o with
  | Returned a _ _ => Some a
  | _ => None
  end.

Definition map_outcome {A B : Type} (f : A -> B) (o : outcome A) : outcome B :=
  match o with
  | Returned a w log => Returned (f a) w log
  | Fatal msg w log => Fatal msg w log
  | Overrun w log => Overrun w log
  end.

(** ** Assembly lookup (m.c, lines 40-61) *)

Definition assembly_get_name (assembly : MonoAssembly) : M string :=
  image <- invoke (mono_assembly_get_image assembly) ;;
  invoke (mono_image_get_name image).

(** The callback writes through [query]; here it returns the updated
    struct. *)
Definition foreach_assembly (assembly : MonoAssembly) (query : MAssemblyQuery)
  : M MAssemblyQuery :=
  name <- assembly_get_name assembly ;;
  if Z.eqb (g_strcmp0 (Some name) (Some (query_name query))) 0
  then ret {| query_assembly := assembly; query_name := query_name query |}
  else ret query.

(** [g_list_foreach]: the callback on every element, front to back, all
    through the same [user_data]. *)
Fixpoint g_list_foreach {D : Type} (l : list MonoAssembly)
    (func : MonoAssembly -> D -> M D) (user_data : D) : M D :=
  match l with
  | [] => ret user_data
  | a :: l' =>
      user_data' <- func a user_data ;;
      g_list_foreach l' func user_data'
  end.

Definition mono_assembly_foreach {D : Type}
    (func : MonoAssembly -> D -> M D) (user_data : D) : M D :=
  loaded <- invoke mono_assembly_loaded ;;
  g_list_foreach loaded func user_data.

(** [MAssemblyQuery query;] is declared without an initialiser and only
    [query.name] is assigned before the walk. *)
Definition find_assembly (name : string) : M MonoAssembly :=
  garbage <- indeterminate ;;
  let query := {| query_assembly := garbage; query_name := name |} in
  query' <- mono_assembly_foreach foreach_assembly query ;;
  ret (query_assembly query').

(** ** Static method descriptors (lines 64-68) *)

(** [name] is the destination buffer; [name_size] is its size in bytes. *)
Definition get_method_desc (name_space class_name method_name : string)
    (name_size : nat) : M string :=
  g_sprintf name_size (name_space ++ "." ++ class_name ++ ":" ++ method_name).

(** ** Domain creation (lines 70-91) *)

Definition m_domain_new (assembly_dir config_dir root_domain_name : string)
    (runtime : MRuntime) : M MDomain :=
  version <- (if Z.eqb runtime M_RUNTIME_4_0 then ret "v4.0.30319"
              else if Z.eqb runtime M_RUNTIME_4_5 then ret "v4.0.30319"
              else g_error "M: Invalid runtime version.") ;;
  invoke (mono_set_dirs assembly_dir config_dir) ;;
  domain <- invoke (mono_jit_init_version root_domain_name version) ;;
  ret {| MDomain_domain := domain |}.

(** ** Objects (lines 122-257) *)

Definition m_object (assembly_name name_space name : string) (argc : Z)
    (args : gpointer) : M MObject :=
  assembly <- find_assembly assembly_name ;;
  image <- invoke (mono_assembly_get_image assembly) ;;
  klass <- invoke (mono_class_from_name image name_space name) ;;
  domain <- invoke mono_domain_get ;;
  object <- invoke (mono_object_new domain klass) ;;
  ctor <- invoke (mono_class_get_method_from_name klass ".ctor" argc) ;;
  type <- invoke (mono_class_get_type klass) ;;
  if is_null ctor
  then g_error ("M: Unable to find constructor for type " ++ name ++ "." ++ nl)
  else
    is_struct <- invoke (mono_type_is_struct type) ;;
    if is_struct
    then
      raw <- invoke (mono_object_unbox object) ;;
      invoke (mono_runtime_invoke ctor raw args NULL) ;;
      ret {| MObject__priv := object |}
    else
      invoke (mono_runtime_invoke ctor object args NULL) ;;
      ret {| MObject__priv := object |}.

Definition m_object_get_property (object : MObject) (property_name : string)
  : M MObject :=
  klass <- invoke (mono_object_get_class (MObject__priv object)) ;;
  prop <- invoke (mono_class_get_property_from_name klass property_name) ;;
  type <- invoke (mono_class_get_type klass) ;;
  is_struct <- invoke (mono_type_is_struct type) ;;
  if is_struct
  then
    raw <- invoke (mono_object_unbox (MObject__priv object)) ;;
    r <- invoke (mono_property_get_value prop raw NULL NULL) ;;
    ret {| MObject__priv := r |}
  else
    r <- invoke (mono_property_get_value prop (MObject__priv object) NULL NULL) ;;
    ret {| MObject__priv := r |}.

Definition m_object_get_property_array (object : MObject) (property_name : string)
  : M MArray :=
  klass <- invoke (mono_object_get_class (MObject__priv object)) ;;
  prop <- invoke (mono_class_get_property_from_name klass property_name) ;;
  type <- invoke (mono_class_get_type klass) ;;
  is_struct <- invoke (mono_type_is_struct type) ;;
  if is_struct
  then
    raw <- invoke (mono_object_unbox (MObject__priv object)) ;;
    r <- invoke (mono_property_get_value prop raw NULL NULL) ;;
    ret {| MArray__priv := r |}
  else
    r <- invoke (mono_property_get_value prop (MObject__priv object) NULL NULL) ;;
    ret {| MArray__priv := r |}.

Definition m_object_set_property (object : MObject) (property_name : string)
    (value : gpointer) : M unit :=
  klass <- invoke (mono_object_get_class (MObject__priv object)) ;;
  prop <- invoke (mono_class_get_property_from_name klass property_name) ;;
  type <- invoke (mono_class_get_type klass) ;;
  let args := [value] in
  is_struct <- invoke (mono_type_is_struct type) ;;
  if is_struct
  then
    raw <- invoke (mono_object_unbox (MObject__priv object)) ;;
    invoke (mono_property_set_value prop raw args NULL)
  else
    invoke (mono_property_set_value prop (MObject__priv object) args NULL).

Definition m_object_set_field (object : MObject) (field_name : string)
    (value : gpointer) : M unit :=
  klass <- invoke (mono_object_get_class (MObject__priv object)) ;;
  field <- invoke (mono_class_get_field_from_name klass field_name) ;;
  type <- invoke (mono_class_get_type klass) ;;
  invoke (mono_field_set_value (MObject__priv object) field value).

Definition m_object_invoke (object : MObject) (method_name : string) (argc : Z)
    (args : gpointer) : M MObject :=
  klass <- invoke (mono_object_get_class (MObject__priv object)) ;;
  method <- invoke (mono_class_get_method_from_name klass method_name argc) ;;
  type <- invoke (mono_class_get_type klass) ;;
  is_struct <- invoke (mono_type_is_struct type) ;;
  if is_struct
  then
    raw <- invoke (mono_object_unbox (MObject__priv object)) ;;
    r <- invoke (mono_runtime_invoke method raw args NULL) ;;
    ret {| MObject__priv := r |}
  else
    r <- invoke (mono_runtime_invoke method (MObject__priv object) args NULL) ;;
    ret {| MObject__priv := r |}.

Definition m_object_unbox (object : MObject) : M gpointer :=
  if is_null (MObject__priv object)
  then g_error "M: Cannot unbox null object."
  else invoke (mono_object_unbox (MObject__priv object)).

(** ** Static invocation (lines 260-292); [gchar name[256]] *)

Definition m_invoke_method (assembly_name name_space static_class_name
    method_name : string) (params : gpointer) : M MObject :=
  name <- get_method_desc name_space static_class_name method_name 256 ;;
  assembly <- find_assembly assembly_name ;;
  if is_null assembly
  then g_error ("M: Unable to find assembly " ++ assembly_name ++ "." ++ nl)
  else
    image <- invoke (mono_assembly_get_image assembly) ;;
    method_desc <- invoke (mono_method_desc_new name false) ;;
    method <- invoke (mono_method_desc_search_in_image method_desc image) ;;
    invoke (mono_method_desc_free method_desc) ;;
    if negb (is_null method)
    then
      r <- invoke (mono_runtime_invoke method NULL params NULL) ;;
      ret {| MObject__priv := r |}
    else g_error ("M: Unable to invoke " ++ name ++ "." ++ nl).

(** ** Arrays (lines 295-327) *)

(** [size] is a [gint]; the third parameter of [mono_array_new] is a
    [uintptr_t]. *)
Definition m_array (assembly_name name_space name : string) (size : Z) : M MArray :=
  assembly <- find_assembly assembly_name ;;
  image <- invoke (mono_assembly_get_image assembly) ;;
  klass <- invoke (mono_class_from_name image name_space name) ;;
  domain <- invoke mono_domain_get ;;
  array <- invoke (mono_array_new domain klass (to_uintptr size)) ;;
  ret {| MArray__priv := array |}.

(** [mono_array_new (mono_domain_get (), mono_get_int32_class (), size)]:
    two of the arguments are calls, made in the order the compiler
    chose. *)
Definition m_array_int32 (size : Z) : M MArray :=
  args <- (if args_right_to_left
           then
             klass <- invoke mono_get_int32_class ;;
             domain <- invoke mono_domain_get ;;
             ret (domain, klass)
           else
             domain <- invoke mono_domain_get ;;
             klass <- invoke mono_get_int32_class ;;
             ret (domain, klass)) ;;
  array <- invoke (mono_array_new (fst args) (snd args) (to_uintptr size)) ;;
  ret {| MArray__priv := array |}.

(** The body is the one call [mono_array_addr_with_size (...);] with the
    closing brace right after it.  There is no [return] statement: the
    caller receives what that call left behind as its result.  [index] is
    a [gint] handed to a [uintptr_t] parameter. *)
Definition m_array_addr_with_size (object : MArray) (size index : Z) : M gpointer :=
  invoke (mono_array_addr_with_size (MArray__priv object) size (to_uintptr index)).

Definition m_array_length (object : MArray) : M Z :=
  length <- invoke (mono_array_length (MArray__priv object)) ;;
  ret (to_gint length).

End Bridge.

Arguments outcome : clear implicits.
Arguments M : clear implicits.
Arguments Returned {W A} a w log.
Arguments Fatal {W A} msg w log.
Arguments Overrun {W A} w log.

(** ** A small runtime

    A concrete, executable runtime on which the bridge can be run: three
    loaded assemblies (two of them carry the image name "Engine"), a value
    type [Engine.Vector3] and a reference type [Engine.Player] in the last
    one, and a bump allocator for objects, arrays and method descriptors. *)
Module Sample.

Record world := {
  next : ptr;
  objects : list (MonoObject * MonoClass);
  arrays : list (MonoArray * Z);
  descs : list (MonoMethodDesc * string);
  junk : ptr
}.

Fixpoint assoc {V : Type} (k : Z) (l : list (Z * V)) : option V :=
  match l with
  | [] => None
  | (k', v) :: l' => if Z.eqb k k' then Some v else assoc k l'
  end.

Definition loaded : list MonoAssembly := [1000; 2000; 3000].

Definition image_names : list (MonoImage * string) :=
  [(1001, "mscorlib"); (2001, "Engine"); (3001, "Engine")].

Definition class_of (image : MonoImage) (name_space name : string) : MonoClass :=
  if Z.eqb image 3001 && String.eqb name_space "Engine" then
    if String.eqb name "Vector3" then 5000
    else if String.eqb name "Player" then 6000
    else NULL
  else NULL.

Definition method_of (klass : MonoClass) (name : string) (param_count : Z) : MonoMethod :=
  if Z.eqb klass 5000 && String.eqb name ".ctor" && Z.eqb param_count 3 then 5100
  else if Z.eqb klass 6000 && String.eqb name ".ctor" && Z.eqb param_count 0 then 6100
  else if Z.eqb klass 6000 && String.eqb name "Update" && Z.eqb param_count 1 then 6200
  else NULL.

Definition property_of (klass : MonoClass) (name : string) : MonoProperty :=
  if Z.eqb klass 6000 && String.eqb name "Health" then 6300 else NULL.

Definition field_of (klass : MonoClass) (name : string) : MonoClassField :=
  if Z.eqb klass 6000 && String.eqb name "score" then 6400 else NULL.

Definition static_method_of (desc : option string) (image : MonoImage) : MonoMethod :=
  match desc with
  | Some d => if String.eqb d "Engine.Game:Init" && Z.eqb image 3001 then 6500 else NULL
  | None => NULL
  end.

Definition rt (X : Type) (e : MonoE X) (w : world) : X * world :=
  match e in MonoE X return X * world with
  | mono_assembly_loaded => (loaded, w)
  | mono_assembly_get_image assembly => (assembly + 1, w)
  | mono_image_get_name image =>
      (match assoc image image_names with Some n => n | None => "" end, w)
  | mono_set_dirs _ _ => (tt, w)
  | mono_jit_init_version _ _ => (100, w)
  | mono_domain_get => (100, w)
  | mono_class_from_name image name_space name => (class_of image name_space name, w)
  | mono_class_get_type klass => (klass + 8, w)
  | mono_type_is_struct type => (Z.eqb type 5008, w)
  | mono_class_get_method_from_name klass name param_count =>
      (method_of klass name param_count, w)
  | mono_class_get_property_from_name klass name => (property_of klass name, w)
  | mono_class_get_field_from_name klass name => (field_of klass name, w)
  | mono_object_new _ klass =>
      (next w,
       {| next := next w + 64; objects := (next w, klass) :: objects w;
          arrays := arrays w; descs := descs w; junk := junk w |})
  | mono_object_get_class obj =>
      (match assoc obj (objects w) with Some k => k | None => NULL end, w)
  | mono_object_unbox obj => (obj + 16, w)
  | mono_runtime_invoke _ _ _ _ => (NULL, w)
  | mono_property_get_value prop _ _ _ => (if Z.eqb prop 6300 then 7000 else NULL, w)
  | mono_property_set_value _ _ _ _ => (tt, w)
  | mono_field_set_value _ _ _ => (tt, w)
  | mono_method_desc_new name _ =>
      (next w,
       {| next := next w + 64; objects := objects w; arrays := arrays w;
          descs := (next w, name) :: descs w; junk := junk w |})
  | mono_method_desc_search_in_image desc image =>
      (static_method_of (assoc desc (descs w)) image, w)
  | mono_method_desc_free _ => (tt, w)
  | mono_get_int32_class => (4000, w)
  | mono_array_new _ _ n =>
      (next w,
       {| next := next w + 64; objects := objects w;
          arrays := (next w, n) :: arrays w; descs := descs w; junk := junk w |})
  | mono_array_addr_with_size array size index => (array + 32 + size * index, w)
  | mono_array_length array =>
      (match assoc array (arrays w) with Some n => n | None => 0 end, w)
  end.

Definition uninit (w : world) : ptr := junk w.

(** The process right after start-up; the stack holds 48879 (0xBEEF)
    wherever it has not been written. *)
Definition w0 : world :=
  {| next := 10000; objects := []; arrays := []; descs := []; junk := 48879 |}.

(** The same process when the stack slot that [find_assembly]'s query
    will occupy still holds 3000, the assembly an earlier lookup of
    "Engine" left there. *)
Definition w_stale : world :=
  {| next := 10000; objects := []; arrays := []; descs := []; junk := 3000 |}.

(** An array of four 32-bit integers at address 10000. *)
Definition w_array : world :=
  {| next := 10064; objects := []; arrays := [(10000, 4)]; descs := [];
     junk := 48879 |}.

(** An [Engine.Player] object at address 10000. *)
Definition w_player : world :=
  {| next := 10064; objects := [(10000, 6000)]; arrays := []; descs := [];
     junk := 48879 |}.

End Sample.


(** ** What a walk over the loaded assemblies looks like

    One entry per assembly visited: the assembly, the image the runtime
    gave for it, and the name the runtime gave for that image. *)
Definition scan_entry : Type := MonoAssembly * MonoImage * string.

Definition assembly_of (e : scan_entry) : MonoAssembly := fst (fst e).
Definition image_of (e : scan_entry) : MonoImage := snd (fst e).
Definition name_of (e : scan_entry) : string := snd e.

(** The two calls [foreach_assembly] makes for each entry. *)
Fixpoint scan_log (scan : list scan_entry) : list call :=
  match scan with
  | [] => []
  | e :: scan' =>
      (mono_assembly_get_image (assembly_of e) ~> image_of e)
        :: (mono_image_get_name (image_of e) ~> name_of e)
        :: scan_log scan'
  end.

(** The log of a whole [find_assembly]. *)
Definition find_log (scan : list scan_entry) : list call :=
  (mono_assembly_loaded ~> map assembly_of scan) :: scan_log scan.

(** The last entry of a walk whose name is [name]. *)
Fixpoint last_match (name : string) (scan : list scan_entry) : option MonoAssembly :=
  match scan with
  | [] => None
  | e :: scan' =>
      match last_match name scan' with
      | Some a => Some a
      | None => if String.eqb (name_of e) name then Some (assembly_of e) else None
      end
  end.

(** The first entry of a walk whose name is [name]: the reading of
    "returns the first whose image name exactly matches". *)
Definition first_match (name : string) (scan : list scan_entry) : option MonoAssembly :=
  option_map assembly_of (find (fun e => String.eqb (name_of e) name) scan).

(** Reading a walk back from the calls it left in a log. *)
Definition entry_of_calls (c1 c2 : call) : option scan_entry :=
  match c1, c2 with
  | Answer e1 x1, Answer e2 x2 =>
      match e1 in MonoE X1 return X1 -> option scan_entry with
      | mono_assembly_get_image a =>
          fun image =>
            match e2 in MonoE X2 return X2 -> option scan_entry with
            | mono_image_get_name _ => fun name => Some (a, image, name)
            | _ => fun _ => None
            end x2
      | _ => fun _ => None
      end x1
  end.

Fixpoint scan_of_log (log : list call) : list scan_entry :=
  match log with
  | c1 :: c2 :: rest =>
      match entry_of_calls c1 c2 with
      | Some e => e :: scan_of_log rest
      | None => []
      end
  | _ => []
  end.

(** The walk over the three assemblies of the small runtime. *)
Definition sample_scan : list scan_entry :=
  [(1000, 1001, "mscorlib"); (2000, 2001, "Engine"); (3000, 3001, "Engine")].

(** A name of 256 bytes. *)
Definition long_name : string := string_of_list_ascii (repeat "A"%char 256).

(** The assembly a finished walk hands back: the last match, or else the
    indeterminate value the query was left with at its declaration. *)
Definition found {W : Type} (uninit : W -> ptr) (name : string)
    (scan : list scan_entry) (w : W) : MonoAssembly :=
  match last_match name scan with
  | Some a => a
  | None => uninit w
  end.

(** The calls [m_object] makes before it looks at the constructor. *)
Definition resolution_log (assembly : MonoAssembly) (name_space name : string)
    (argc : Z) (scan : list scan_entry) (image : MonoImage) (klass : MonoClass)
    (domain : MonoDomain) (object : MonoObject) (ctor : MonoMethod)
    (type : MonoType) : list call :=
  (find_log scan ++
   [mono_assembly_get_image assembly ~> image;
    mono_class_from_name image name_space name ~> klass;
    mono_domain_get ~> domain;
    mono_object_new domain klass ~> object;
    mono_class_get_method_from_name klass ".ctor" argc ~> ctor;
    mono_class_get_type klass ~> type])%list.

(** The calls [m_invoke_method] makes between the assembly check and the
    method check. *)
Definition search_log (assembly : MonoAssembly) (name : string)
    (scan : list scan_entry) (image : MonoImage) (method_desc : MonoMethodDesc)
    (method : MonoMethod) : list call :=
  (find_log scan ++
   [mono_assembly_get_image assembly ~> image;
    mono_method_desc_new name false ~> method_desc;
    mono_method_desc_search_in_image method_desc image ~> method;
    mono_method_desc_free method_desc ~> tt])%list.

(** What the bridge relies on for array lengths: asked for its length
    right after its creation, an array created with [n] elements answers
    [n]. *)
Definition array_length_contract {W : Type}
    (rt : forall X : Type, MonoE X -> W -> X * W) : Prop :=
  forall (domain : MonoDomain) (eclass : MonoClass) (n : Z) (w : W),
    0 <= n ->
    fst (rt Z (mono_array_length (fst (rt MonoArray (mono_array_new domain eclass n) w)))
           (snd (rt MonoArray (mono_array_new domain eclass n) w))) = n.

(** ** Loading, running and tearing down (m.c, lines 94-119)

    The three functions below call four API functions that the rest of
    m.c never uses.  They are events of their own, answered by a second
    handler [host]; a log lists the [MonoE] calls only, so these calls
    leave no entry in it and the theorems about them name the handler's
    answers directly. *)
Inductive HostE : Type -> Type :=
| mono_jit_cleanup (domain : MonoDomain) : HostE unit
| mono_domain_assembly_open (domain : MonoDomain) (name : string) : HostE MonoAssembly
| mono_jit_exec (domain : MonoDomain) (assembly : MonoAssembly) (argc : Z)
    (argv : list string) : HostE Z.

Section Hosting.

Context {W : Type}.
Variable rt : forall X : Type, MonoE X -> W -> X * W.
Variable host : forall X : Type, HostE X -> W -> X * W.

Definition host_call {X : Type} (e : HostE X) : M W X :=
  fun w => let (x, w1) := host X e w in Returned x w1 [].

(** [g_free (domain)] gives back the storage of the struct, which the
    model does not represent. *)
Definition m_domain_free (domain : MDomain) : M W unit :=
  host_call (mono_jit_cleanup (MDomain_domain domain)).

(** [argv] is the argument vector as a list; [argv + 1] is the vector
    without its first entry. *)
Definition m_domain_exec (domain : MDomain) (name : string) (argc : Z)
    (argv : list string) : M W unit :=
  assembly <- host_call (mono_domain_assembly_open (MDomain_domain domain) name) ;;
  if is_null assembly
  then g_error ("M: Unable to load " ++ name ++ " assembly." ++ nl)
  else
    host_call (mono_jit_exec (MDomain_domain domain) assembly (argc - 1) (tl argv)) ;;
    ret tt.

Definition m_load_assembly (name : string) : M W unit :=
  domain <- invoke rt mono_domain_get ;;
  assembly <- host_call (mono_domain_assembly_open domain name) ;;
  if is_null assembly
  then g_error ("M: Unable to load " ++ name ++ " assembly." ++ nl)
  else ret tt.

End Hosting.

(** A host for the small runtime: it can open "Engine.dll" and
    "Game.exe" and nothing else. *)
Definition sample_host (X : Type) (e : HostE X) (w : Sample.world) : X * Sample.world :=
  match e in HostE X return X * Sample.world with
  | mono_jit_cleanup _ => (tt, w)
  | mono_domain_assembly_open _ name =>
      (if String.eqb name "Engine.dll" then 3000
       else if String.eqb name "Game.exe" then 4000
       else NULL, w)
  | mono_jit_exec _ _ argc _ => (argc, w)
  end.

(** ** Runtimes whose metadata getters only read *)

(** The three getters [find_assembly] relies on leave the state alone. *)
Definition getters_pure {W : Type} (rt : forall X : Type, MonoE X -> W -> X * W) : Prop :=
  forall w : W,
    snd (rt _ mono_assembly_loaded w) = w /\
    (forall a : MonoAssembly, snd (rt _ (mono_assembly_get_image a) w) = w) /\
    (forall i : MonoImage, snd (rt _ (mono_image_get_name i) w) = w).

(** What the runtime says about one assembly in state [w]. *)
Definition entry_at {W : Type} (rt : forall X : Type, MonoE X -> W -> X * W)
    (w : W) (a : MonoAssembly) : scan_entry :=
  (a, fst (rt _ (mono_assembly_get_image a) w),
   fst (rt _ (mono_image_get_name (fst (rt _ (mono_assembly_get_image a) w))) w)).

(** The loaded assemblies with their images and names, all read in [w]. *)
Definition snapshot {W : Type} (rt : forall X : Type, MonoE X -> W -> X * W)
    (w : W) : list scan_entry :=
  map (entry_at rt w) (fst (rt _ mono_assembly_loaded w)).

(** The calls by which the property accessors and [m_object_invoke] find
    out what to work on. *)
Definition is_lookup {X : Type} (e : MonoE X) : bool :=
  match e with
  | mono_object_get_class _
  | mono_class_get_property_from_name _ _
  | mono_class_get_type _
  | mono_type_is_struct _
  | mono_object_unbox _ => true
  | _ => false
  end.

(** A runtime that keeps properties: lookups only read, a property write
    does not change what lookups answer, and reading a property right
    after writing it gives back the handle that was written. *)
Definition keeps_properties {W : Type} (rt : forall X : Type, MonoE X -> W -> X * W)
  : Prop :=
  (forall (X : Type) (e : MonoE X) (w : W),
     is_lookup e = true -> snd (rt X e w) = w) /\
  (forall (X : Type) (e : MonoE X) (prop : MonoProperty) (obj : gpointer)
          (params : list gpointer) (w : W),
     is_lookup e = true ->
     fst (rt X e (snd (rt _ (mono_property_set_value prop obj params NULL) w)))
       = fst (rt X e w)) /\
  (forall (prop : MonoProperty) (obj : gpointer) (value : gpointer) (w : W),
     fst (rt _ (mono_property_get_value prop obj NULL NULL)
            (snd (rt _ (mono_property_set_value prop obj [value] NULL) w))) = value).

(** The small runtime with a property store on top: a write is kept as
    (property, receiver, value), a read gives the latest value kept. *)
Module Store.

Definition world : Type := Sample.world * list (MonoProperty * gpointer * gpointer).

Fixpoint stored (prop : MonoProperty) (obj : gpointer)
    (l : list (MonoProperty * gpointer * gpointer)) : gpointer :=
  match l with
  | [] => NULL
  | (p, o, v) :: l' => if Z.eqb p prop && Z.eqb o obj then v else stored prop obj l'
  end.

Definition rt (X : Type) (e : MonoE X) (w : world) : X * world :=
  match e in MonoE X return X * Sample.world -> X * world with
  | mono_property_set_value prop obj params _ =>
      fun r => (fst r, (snd r, (prop, obj, hd NULL params) :: snd w))
  | mono_property_get_value prop obj _ _ =>
      fun r => (stored prop obj (snd w), (snd r, snd w))
  | _ => fun r => (fst r, (snd r, snd w))
  end (Sample.rt X e (fst w)).

Definition w_player : world := (Sample.w_player, []).

End Store.

(** What the accessors resolve for an object in state [w]: the property
    handle for a name, and the receiver they hand to the runtime (the
    unboxed storage for a struct, the object otherwise). *)
Definition class_at {W : Type} (rt : forall X : Type, MonoE X -> W -> X * W)
    (w : W) (object : MObject) : MonoClass :=
  fst (rt _ (mono_object_get_class (MObject__priv object)) w).

Definition property_at {W : Type} (rt : forall X : Type, MonoE X -> W -> X * W)
    (w : W) (object : MObject) (property_name : string) : MonoProperty :=
  fst (rt _ (mono_class_get_property_from_name (class_at rt w object) property_name) w).

Definition receiver_at {W : Type} (rt : forall X : Type, MonoE X -> W -> X * W)
    (w : W) (object : MObject) : gpointer :=
  if fst (rt _ (mono_type_is_struct
                  (fst (rt _ (mono_class_get_type (class_at rt w object)) w))) w)
  then fst (rt _ (mono_object_unbox (MObject__priv object)) w)
  else MObject__priv object.

(** The small runtime before any assembly is loaded. *)
Definition bare_rt (X : Type) (e : MonoE X) (w : Sample.world) : X * Sample.world :=
  match e in MonoE X return X * Sample.world -> X * Sample.world with
  | mono_assembly_loaded => fun r => ([], snd r)
  | _ => fun r => r
  end (Sample.rt X e w).

(** ** The runtime's answers, in the order the bridge asks for them

    Nothing below is part of the bridge.  Each function puts to the
    runtime [rt] itself, one after the other and each in the state the
    one before it left, the questions a bridge function has to ask, and
    collects the answers, so that a theorem can say what the bridge makes
    of them. *)
Section Answers.

Context {W : Type}.
Variable rt : forall X : Type, MonoE X -> W -> X * W.
Variable uninit : W -> ptr.

(** Image and image name of each assembly of [l], front to back. *)
Fixpoint walk (l : list MonoAssembly) (w : W) : list scan_entry * W :=
  match l with
  | [] => ([], w)
  | a :: l' =>
      let (image, w1) := rt _ (mono_assembly_get_image a) w in
      let (name, w2) := rt _ (mono_image_get_name image) w1 in
      let (scan, w3) := walk l' w2 in
      ((a, image, name) :: scan, w3)
  end.

(** The same for the assemblies the runtime lists as loaded. *)
Definition runtime_walk (w : W) : list scan_entry * W :=
  let (loaded, w0) := rt _ mono_assembly_loaded w in
  walk loaded w0.

(** What [m_object] has to resolve before it can construct. *)
Record object_resolution : Type := {
  res_scan : list scan_entry;
  res_assembly : MonoAssembly;
  res_image : MonoImage;
  res_klass : MonoClass;
  res_domain : MonoDomain;
  res_object : MonoObject;
  res_ctor : MonoMethod;
  res_type : MonoType;
  res_state : W
}.

Definition resolve_object (assembly_name name_space name : string) (argc : Z) (w : W)
  : object_resolution :=
  let (scan, w0) := runtime_walk w in
  let assembly := found uninit assembly_name scan w in
  let (image, w1) := rt _ (mono_assembly_get_image assembly) w0 in
  let (klass, w2) := rt _ (mono_class_from_name image name_space name) w1 in
  let (domain, w3) := rt _ mono_domain_get w2 in
  let (object, w4) := rt _ (mono_object_new domain klass) w3 in
  let (ctor, w5) := rt _ (mono_class_get_method_from_name klass ".ctor" argc) w4 in
  let (type, w6) := rt _ (mono_class_get_type klass) w5 in
  {| res_scan := scan; res_assembly := assembly; res_image := image;
     res_klass := klass; res_domain := domain; res_object := object;
     res_ctor := ctor; res_type := type; res_state := w6 |}.

Definition resolution_log_of (name_space name : string) (argc : Z)
    (r : object_resolution) : list call :=
  resolution_log (res_assembly r) name_space name argc (res_scan r) (res_image r)
    (res_klass r) (res_domain r) (res_object r) (res_ctor r) (res_type r).

(** What [m_invoke_method] has to resolve for the descriptor [desc_name],
    up to the release of the descriptor. *)
Record method_search : Type := {
  srch_scan : list scan_entry;
  srch_found_state : W;
  srch_assembly : MonoAssembly;
  srch_image : MonoImage;
  srch_desc : MonoMethodDesc;
  srch_method : MonoMethod;
  srch_state : W
}.

Definition search_method (assembly_name desc_name : string) (w : W) : method_search :=
  let (scan, w0) := runtime_walk w in
  let assembly := found uninit assembly_name scan w in
  let (image, w1) := rt _ (mono_assembly_get_image assembly) w0 in
  let (method_desc, w2) := rt _ (mono_method_desc_new desc_name false) w1 in
  let (method, w3) := rt _ (mono_method_desc_search_in_image method_desc image) w2 in
  let (_, w4) := rt _ (mono_method_desc_free method_desc) w3 in
  {| srch_scan := scan; srch_found_state := w0; srch_assembly := assembly;
     srch_image := image; srch_desc := method_desc; srch_method := method;
     srch_state := w4 |}.

Definition search_log_of (desc_name : string) (s : method_search) : list call :=
  search_log (srch_assembly s) desc_name (srch_scan s) (srch_image s) (srch_desc s)
    (srch_method s).

(** What the accessors and [m_object_invoke] have to find out about an
    object: its class, the member asked for ([member] is the lookup call
    for it, given the class), the type and whether it is a struct. *)
Record member_lookup : Type := {
  ml_klass : MonoClass;
  ml_member : ptr;
  ml_type : MonoType;
  ml_struct : bool;
  ml_state : W
}.

Definition lookup_member (member : MonoClass -> MonoE ptr) (object : MObject) (w : W)
  : member_lookup :=
  let (klass, w1) := rt _ (mono_object_get_class (MObject__priv object)) w in
  let (m, w2) := rt _ (member klass) w1 in
  let (type, w3) := rt _ (mono_class_get_type klass) w2 in
  let (is_struct, w4) := rt _ (mono_type_is_struct type) w3 in
  {| ml_klass := klass; ml_member := m; ml_type := type; ml_struct := is_struct;
     ml_state := w4 |}.

Definition member_log (member : MonoClass -> MonoE ptr) (object : MObject)
    (l : member_lookup) : list call :=
  [mono_object_get_class (MObject__priv object) ~> ml_klass l;
   member (ml_klass l) ~> ml_member l;
   mono_class_get_type (ml_klass l) ~> ml_type l;
   mono_type_is_struct (ml_type l) ~> ml_struct l].

End Answers.

(** ** Raw memory behind an address

    A caller that writes a value through a pointer and reads it back;
    [poke] and [peek] are the machine's store and load. *)
Definition write_then_read {W : Type} (poke : ptr -> Z -> W -> W) (peek : ptr -> W -> Z)
    (p : ptr) (v : Z) : M W Z :=
  fun w => Returned (peek p (poke p v w)) (poke p v w) [].

(** The small runtime with a memory on top: the cells written so far. *)
Module Heap.

Definition world : Type := Sample.world * list (ptr * Z).

Definition rt (X : Type) (e : MonoE X) (w : world) : X * world :=
  (fst (Sample.rt X e (fst w)), (snd (Sample.rt X e (fst w)), snd w)).

Definition poke (p : ptr) (v : Z) (w : world) : world := (fst w, (p, v) :: snd w).

Definition peek (p : ptr) (w : world) : Z :=
  match Sample.assoc p (snd w) with
  | Some v => v
  | None => 0
  end.

Definition w_array : world := (Sample.w_array, []).

End Heap.

(** * Properties *)

(** ** Strings *)

Lemma string_compare_refl (s : string) : String.compare s s = Eq.
Proof.
  induction s as [|c s IH]; simpl; [reflexivity|].
  unfold Ascii.compare. now rewrite N.compare_refl.
Qed.

Lemma strcmp_eq_0 (s1 s2 : string) : Z.eqb (strcmp s1 s2) 0 = String.eqb s1 s2.
Proof.
  unfold strcmp.
  destruct (String.eqb_spec s1 s2) as [->|Hne].
  - now rewrite string_compare_refl.
  - destruct (String.compare s1 s2) eqn:Hc; try reflexivity.
    apply String.compare_eq_iff in Hc. contradiction.
Qed.

Lemma g_strcmp0_eq_0 (s1 s2 : string) :
  Z.eqb (g_strcmp0 (Some s1) (Some s2)) 0 = String.eqb s1 s2.
Proof. apply strcmp_eq_0. Qed.

(** ** Walks *)

Lemma last_match_none (name : string) (scan : list scan_entry) :
  (forall e, In e scan -> name_of e <> name) -> last_match name scan = None.
Proof.
  induction scan as [|e scan IH]; intros Hno; simpl; [reflexivity|].
  rewrite IH by (intros e' He'; apply Hno; now right).
  destruct (String.eqb_spec (name_of e) name) as [Heq|_]; [|reflexivity].
  exfalso. apply (Hno e); [now left | exact Heq].
Qed.

Lemma last_match_split (name : string) (pre post : list scan_entry) (e : scan_entry) :
  name_of e = name ->
  (forall e', In e' post -> name_of e' <> name) ->
  last_match name (pre ++ e :: post)%list = Some (assembly_of e).
Proof.
  intros He Hpost.
  induction pre as [|p pre IH]; simpl.
  - rewrite (last_match_none name post Hpost).
    rewrite He, String.eqb_refl. reflexivity.
  - rewrite IH. reflexivity.
Qed.

Lemma scan_of_scan_log (scan : list scan_entry) : scan_of_log (scan_log scan) = scan.
Proof.
  induction scan as [|[[a image] name] scan IH]; [reflexivity|].
  simpl. now rewrite IH.
Qed.

Lemma find_log_inj (scan1 scan2 : list scan_entry) :
  find_log scan1 = find_log scan2 -> scan1 = scan2.
Proof.
  intros Hlog.
  apply (f_equal (fun log => scan_of_log (tl log))) in Hlog.
  simpl in Hlog. now rewrite !scan_of_scan_log in Hlog.
Qed.

(** Handle types are all [ptr]; spelled out so that the same call reads
    the same wherever it stands. *)
Ltac plain :=
  unfold MonoDomain, MonoAssembly, MonoImage, MonoClass, MonoType, MonoObject,
    MonoMethod, MonoMethodDesc, MonoProperty, MonoClassField, MonoArray, gpointer in *.

Section BridgeFacts.

Context {W : Type}.
Variable rt : forall X : Type, MonoE X -> W -> X * W.
Variable uninit : W -> ptr.
Variables M_RUNTIME_4_0 M_RUNTIME_4_5 : MRuntime.
Variable args_right_to_left : bool.

(** Unfolding equations of the monad. *)
Lemma bind_run {A B : Type} (m : M W A) (k : A -> M W B) (w : W) :
  bind m k w =
    match m w with
    | Returned a w1 l1 => after l1 (k a w1)
    | Fatal msg w1 l1 => Fatal msg w1 l1
    | Overrun w1 l1 => Overrun w1 l1
    end.
Proof. reflexivity. Qed.

Lemma bind_invoke {X B : Type} (e : MonoE X) (k : X -> M W B) (w : W) :
  bind (invoke rt e) k w =
    after [e ~> fst (rt X e w)] (k (fst (rt X e w)) (snd (rt X e w))).
Proof.
  rewrite bind_run. unfold invoke. now destruct (rt X e w).
Qed.

Lemma after_nil {A : Type} (o : outcome W A) : after [] o = o.
Proof. now destruct o. Qed.

Lemma after_after {A : Type} (l1 l2 : list call) (o : outcome W A) :
  after l1 (after l2 o) = after (l1 ++ l2)%list o.
Proof. destruct o; simpl; now rewrite app_assoc. Qed.

Lemma log_of_after {A : Type} (l : list call) (o : outcome W A) :
  log_of (after l o) = (l ++ log_of o)%list.
Proof. now destruct o. Qed.

Lemma foreach_assembly_run (a : MonoAssembly) (query : MAssemblyQuery) (w : W) :
  exists (image : MonoImage) (name : string) (w1 : W),
    foreach_assembly rt a query w =
      Returned
        (if String.eqb name (query_name query)
         then {| query_assembly := a; query_name := query_name query |}
         else query)
        w1
        [mono_assembly_get_image a ~> image; mono_image_get_name image ~> name].
Proof.
  unfold foreach_assembly, assembly_get_name.
  rewrite bind_run, bind_invoke.
  destruct (rt _ (mono_assembly_get_image a) w) as [image w1]. simpl.
  unfold invoke.
  destruct (rt _ (mono_image_get_name image) w1) as [name w2]. simpl.
  exists image, name, w2.
  rewrite strcmp_eq_0.
  now destruct (String.eqb name (query_name query)).
Qed.

(** The walk itself: whatever the runtime answers, [g_list_foreach]
    visits every assembly of the list in order, and leaves in the query
    the last one whose name matched, or what the query held before. *)
Lemma g_list_foreach_scan (l : list MonoAssembly) :
  forall (query : MAssemblyQuery) (w : W),
  exists (scan : list scan_entry) (w1 : W),
    map assembly_of scan = l /\
    g_list_foreach l (foreach_assembly rt) query w =
      Returned
        {| query_assembly :=
             match last_match (query_name query) scan with
             | Some a => a
             | None => query_assembly query
             end;
           query_name := query_name query |}
        w1 (scan_log scan).
Proof.
  induction l as [|a l IH]; intros query w.
  - exists [], w. split; [reflexivity|]. destruct query; reflexivity.
  - destruct (foreach_assembly_run a query w) as (image & name & w1 & Hstep).
    change (g_list_foreach (a :: l) (foreach_assembly rt) query w)
      with (bind (foreach_assembly rt a query)
              (fun q => g_list_foreach l (foreach_assembly rt) q) w).
    rewrite bind_run, Hstep.
    destruct (IH (if String.eqb name (query_name query)
                  then {| query_assembly := a; query_name := query_name query |}
                  else query) w1) as (scan & w2 & Hmap & Hrun).
    exists ((a, image, name) :: scan), w2. split.
    + simpl. now rewrite Hmap.
    + rewrite Hrun. simpl. unfold assembly_of, image_of. simpl.
      destruct (String.eqb name (query_name query)) eqn:Hmatch; simpl;
        destruct (last_match (query_name query) scan); reflexivity.
Qed.

(** A complete description of a run of [find_assembly]. *)
Lemma find_assembly_run (name : string) (w : W) :
  exists (scan : list scan_entry) (w1 : W),
    find_assembly rt uninit name w =
      Returned (found uninit name scan w) w1 (find_log scan).
Proof.
  unfold find_assembly, mono_assembly_foreach.
  rewrite bind_run. unfold indeterminate at 1. rewrite after_nil.
  rewrite bind_run, bind_invoke.
  destruct (rt _ mono_assembly_loaded w) as [l w0]. simpl fst. simpl snd.
  destruct (g_list_foreach_scan l {| query_assembly := uninit w; query_name := name |} w0)
    as (scan & w1 & Hmap & Hrun).
  exists scan, w1. rewrite Hrun. simpl. unfold find_log.
  now rewrite Hmap, app_nil_r.
Qed.

Lemma is_null_true (p : ptr) : is_null p = true <-> p = NULL.
Proof. unfold is_null. apply Z.eqb_eq. Qed.

Lemma is_null_false (p : ptr) : is_null p = false <-> p <> NULL.
Proof. unfold is_null. apply Z.eqb_neq. Qed.

(** One call into the runtime at the head of a computation: name its
    answer and the state it leaves. *)
Ltac answer x w' :=
  rewrite bind_invoke;
  match goal with
  | |- context [fst (rt ?X ?e ?w)] =>
      destruct (rt X e w) as [x w']; cbn beta iota delta [fst snd]
  end.

(** [m_invoke_method] up to the method check, when the descriptor fits
    the buffer. *)
Lemma m_invoke_method_resolution (assembly_name name_space static_class_name
    method_name : string) (params : gpointer) (w : W) :
  (String.length (name_space ++ "." ++ static_class_name ++ ":" ++ method_name)
   < 256)%nat ->
  exists (scan : list scan_entry) (w1 : W),
    m_invoke_method rt uninit assembly_name name_space static_class_name
      method_name params w =
      after (find_log scan)
        (if is_null (found uninit assembly_name scan w)
         then Fatal ("M: Unable to find assembly " ++ assembly_name ++ "." ++ nl) w1 []
         else
           (image <- invoke rt (mono_assembly_get_image (found uninit assembly_name scan w)) ;;
            method_desc <- invoke rt
              (mono_method_desc_new
                 (name_space ++ "." ++ static_class_name ++ ":" ++ method_name) false) ;;
            method <- invoke rt (mono_method_desc_search_in_image method_desc image) ;;
            invoke rt (mono_method_desc_free method_desc) ;;
            if negb (is_null method)
            then
              r <- invoke rt (mono_runtime_invoke method NULL params NULL) ;;
              ret {| MObject__priv := r |}
            else g_error ("M: Unable to invoke "
                          ++ (name_space ++ "." ++ static_class_name ++ ":" ++ method_name)
                          ++ "." ++ nl)) w1).
Proof.
  intros Hfits.
  destruct (find_assembly_run assembly_name w) as (scan & w1 & Hfa).
  exists scan, w1.
  unfold m_invoke_method, get_method_desc, g_sprintf.
  rewrite (proj2 (Nat.ltb_lt _ _) Hfits).
  rewrite bind_run. cbn [ret Monad_M M_ret after app].
  rewrite bind_run, Hfa.
  rewrite after_nil. now destruct (is_null (found uninit assembly_name scan w)).
Qed.

(** A descriptor that does not fit overruns the buffer before anything
    else happens. *)
Lemma m_invoke_method_overrun (assembly_name name_space static_class_name
    method_name : string) (params : gpointer) (w : W) :
  (256 <= String.length (name_space ++ "." ++ static_class_name ++ ":" ++ method_name))%nat ->
  m_invoke_method rt uninit assembly_name name_space static_class_name
    method_name params w = Overrun w [].
Proof.
  intros Hlong.
  unfold m_invoke_method, get_method_desc, g_sprintf.
  rewrite (proj2 (Nat.ltb_ge _ _) Hlong).
  reflexivity.
Qed.

(** A name no loaded assembly carries: the walk leaves the query as it
    was declared, and the indeterminate pointer comes back. *)
Lemma find_assembly_no_match (name : string) (w : W) (scan : list scan_entry) :
  log_of (find_assembly rt uninit name w) = find_log scan ->
  (forall e, In e scan -> name_of e <> name) ->
  result_of (find_assembly rt uninit name w) = Some (uninit w).
Proof.
  intros Hlog Hno.
  destruct (find_assembly_run name w) as (scan' & w1 & Hrun).
  rewrite Hrun in Hlog |- *. apply find_log_inj in Hlog. subst scan'.
  simpl. unfold found. now rewrite (last_match_none name scan Hno).
Qed.

(** The callback, with the runtime's answers written out. *)
Lemma foreach_assembly_eq (a : MonoAssembly) (query : MAssemblyQuery) (w : W) :
  foreach_assembly rt a query w =
    Returned
      (if String.eqb
            (fst (rt _ (mono_image_get_name (fst (rt _ (mono_assembly_get_image a) w)))
                    (snd (rt _ (mono_assembly_get_image a) w))))
            (query_name query)
       then {| query_assembly := a; query_name := query_name query |}
       else query)
      (snd (rt _ (mono_image_get_name (fst (rt _ (mono_assembly_get_image a) w)))
              (snd (rt _ (mono_assembly_get_image a) w))))
      [mono_assembly_get_image a ~> fst (rt _ (mono_assembly_get_image a) w);
       mono_image_get_name (fst (rt _ (mono_assembly_get_image a) w))
         ~> fst (rt _ (mono_image_get_name (fst (rt _ (mono_assembly_get_image a) w)))
                   (snd (rt _ (mono_assembly_get_image a) w)))].
Proof.
  unfold foreach_assembly, assembly_get_name.
  rewrite bind_run, bind_invoke.
  destruct (rt _ (mono_assembly_get_image a) w) as [image w1]. cbn [fst snd].
  unfold invoke.
  destruct (rt _ (mono_image_get_name image) w1) as [name w2]. cbn [fst snd after app].
  rewrite g_strcmp0_eq_0.
  now destruct (String.eqb name (query_name query)).
Qed.

Lemma walk_assemblies (l : list MonoAssembly) :
  forall w : W, map assembly_of (fst (walk rt l w)) = l.
Proof.
  induction l as [|a l IH]; intros w; simpl; [reflexivity|].
  destruct (rt _ (mono_assembly_get_image a) w) as [image w1].
  destruct (rt _ (mono_image_get_name image) w1) as [name w2].
  specialize (IH w2). destruct (walk rt l w2) as [scan w3].
  simpl in *. now rewrite IH.
Qed.

(** The walk of the bridge is the walk of the runtime's answers. *)
Lemma g_list_foreach_walk (l : list MonoAssembly) :
  forall (query : MAssemblyQuery) (w : W),
    g_list_foreach l (foreach_assembly rt) query w =
      Returned
        {| query_assembly :=
             match last_match (query_name query) (fst (walk rt l w)) with
             | Some a => a
             | None => query_assembly query
             end;
           query_name := query_name query |}
        (snd (walk rt l w)) (scan_log (fst (walk rt l w))).
Proof.
  induction l as [|a l IH]; intros query w.
  - destruct query; reflexivity.
  - change (g_list_foreach (a :: l) (foreach_assembly rt) query w)
      with (bind (foreach_assembly rt a query)
              (fun q => g_list_foreach l (foreach_assembly rt) q) w).
    rewrite bind_run, foreach_assembly_eq. cbn [walk].
    destruct (rt _ (mono_assembly_get_image a) w) as [image w1]. cbn [fst snd].
    destruct (rt _ (mono_image_get_name image) w1) as [name w2]. cbn [fst snd].
    rewrite IH. destruct (walk rt l w2) as [scan w3].
    cbn [fst snd scan_log last_match after app name_of assembly_of image_of].
    destruct (String.eqb name (query_name query)) eqn:Hmatch;
      cbn [query_name query_assembly];
      destruct (last_match (query_name query) scan); reflexivity.
Qed.

(** The whole of a run of [find_assembly], in the runtime's own answers. *)
Lemma find_assembly_walk (name : string) (w : W) :
  find_assembly rt uninit name w =
    Returned (found uninit name (fst (runtime_walk rt w)) w)
      (snd (runtime_walk rt w)) (find_log (fst (runtime_walk rt w))).
Proof.
  unfold find_assembly, mono_assembly_foreach, runtime_walk.
  rewrite bind_run. unfold indeterminate at 1. rewrite after_nil.
  rewrite bind_run, bind_invoke.
  destruct (rt _ mono_assembly_loaded w) as [l w0]. cbn [fst snd].
  rewrite g_list_foreach_walk.
  cbn [after query_assembly query_name ret Monad_M M_ret app].
  unfold found, find_log. now rewrite walk_assemblies, app_nil_r.
Qed.

(** C1 (amended): [find_assembly] asks the runtime for the image and the
    image name of every assembly the runtime lists as loaded, in the
    listed order, and nothing else; when, among the answers, [a] is the
    last assembly whose image name is the given name, [find_assembly]
    returns [a]. *)
Theorem find_assembly_returns_last_match (name : string) (w : W) :
  log_of (find_assembly rt uninit name w) = find_log (fst (runtime_walk rt w)) /\
  (forall (pre post : list scan_entry) (a : MonoAssembly) (image : MonoImage),
     fst (runtime_walk rt w) = (pre ++ (a, image, name) :: post)%list ->
     (forall e, In e post -> name_of e <> name) ->
     find_assembly rt uninit name w =
       Returned a (snd (runtime_walk rt w)) (find_log (fst (runtime_walk rt w)))).
Proof.
  rewrite find_assembly_walk. split; [reflexivity|].
  intros pre post a image Hwalk Hpost.
  unfold found. rewrite Hwalk at 1.
  set (l := last_match _ _).
  assert (l = Some a) as ->
    by exact (last_match_split name pre post (a, image, name) eq_refl Hpost).
  reflexivity.
Qed.

(** [m_object] up to its test of the constructor, in the runtime's own
    answers. *)
Lemma m_object_resolved (assembly_name name_space name : string) (argc : Z)
    (args : gpointer) (w : W) :
  m_object rt uninit assembly_name name_space name argc args w =
    after
      (resolution_log_of name_space name argc
         (resolve_object rt uninit assembly_name name_space name argc w))
      (if is_null
            (res_ctor (resolve_object rt uninit assembly_name name_space name argc w))
       then
         Fatal ("M: Unable to find constructor for type " ++ name ++ "." ++ nl)
           (res_state (resolve_object rt uninit assembly_name name_space name argc w))
           []
       else
         (is_struct <- invoke rt
            (mono_type_is_struct
               (res_type (resolve_object rt uninit assembly_name name_space name argc w))) ;;
          if is_struct
          then
            raw <- invoke rt
              (mono_object_unbox
                 (res_object
                    (resolve_object rt uninit assembly_name name_space name argc w))) ;;
            invoke rt
              (mono_runtime_invoke
                 (res_ctor (resolve_object rt uninit assembly_name name_space name argc w))
                 raw args NULL) ;;
            ret {| MObject__priv :=
                     res_object
                       (resolve_object rt uninit assembly_name name_space name argc w) |}
          else
            invoke rt
              (mono_runtime_invoke
                 (res_ctor (resolve_object rt uninit assembly_name name_space name argc w))
                 (res_object
                    (resolve_object rt uninit assembly_name name_space name argc w))
                 args NULL) ;;
            ret {| MObject__priv :=
                     res_object
                       (resolve_object rt uninit assembly_name name_space name argc w) |})
           (res_state (resolve_object rt uninit assembly_name name_space name argc w))).
Proof.
  unfold m_object, resolve_object, resolution_log_of.
  rewrite bind_run, find_assembly_walk.
  destruct (runtime_walk rt w) as [scan w0]. cbn [fst snd].
  answer image w1. answer klass w2. answer domain w3. answer object w4.
  answer ctor w5. answer type w6.
  cbn [res_scan res_assembly res_image res_klass res_domain res_object res_ctor
       res_type res_state].
  rewrite !after_after. unfold resolution_log.
  rewrite <- !app_assoc. cbn [app].
  now destruct (is_null ctor).
Qed.

(** C6: [m_object] looks the constructor up by [".ctor"] and the argument
    count on the class it resolved.  When the runtime answers null, it
    aborts with the diagnostic and invokes nothing.  Otherwise it invokes
    that constructor exactly once, with the given arguments: on
    [mono_object_unbox] of the new object when the runtime says the type
    is a struct, on the new object itself when it says it is not; and it
    returns the new object. *)
Theorem m_object_constructor_dispatch (assembly_name name_space name : string)
    (argc : Z) (args : gpointer) (w : W) :
  let r := resolve_object rt uninit assembly_name name_space name argc w in
  let resolution := resolution_log_of name_space name argc r in
  let is_struct := rt _ (mono_type_is_struct (res_type r)) (res_state r) in
  let unboxed := rt _ (mono_object_unbox (res_object r)) (snd is_struct) in
  let on_unboxed :=
    rt _ (mono_runtime_invoke (res_ctor r) (fst unboxed) args NULL) (snd unboxed) in
  let on_object :=
    rt _ (mono_runtime_invoke (res_ctor r) (res_object r) args NULL) (snd is_struct) in
  (res_ctor r = NULL ->
   m_object rt uninit assembly_name name_space name argc args w =
     Fatal ("M: Unable to find constructor for type " ++ name ++ "." ++ nl)
       (res_state r) resolution)
  /\
  (res_ctor r <> NULL -> fst is_struct = true ->
   m_object rt uninit assembly_name name_space name argc args w =
     Returned {| MObject__priv := res_object r |} (snd on_unboxed)
       (resolution ++
        [mono_type_is_struct (res_type r) ~> true;
         mono_object_unbox (res_object r) ~> fst unboxed;
         mono_runtime_invoke (res_ctor r) (fst unboxed) args NULL ~> fst on_unboxed])%list)
  /\
  (res_ctor r <> NULL -> fst is_struct = false ->
   m_object rt uninit assembly_name name_space name argc args w =
     Returned {| MObject__priv := res_object r |} (snd on_object)
       (resolution ++
        [mono_type_is_struct (res_type r) ~> false;
         mono_runtime_invoke (res_ctor r) (res_object r) args NULL ~> fst on_object])%list).
Proof.
  cbv zeta. rewrite m_object_resolved.
  set (r := resolve_object rt uninit assembly_name name_space name argc w).
  repeat split.
  - intros Hctor. rewrite (proj2 (is_null_true _) Hctor). cbn [after].
    now rewrite app_nil_r.
  - intros Hctor Hstruct. rewrite (proj2 (is_null_false _) Hctor).
    rewrite bind_invoke, Hstruct. cbn beta iota.
    rewrite bind_invoke, bind_invoke. reflexivity.
  - intros Hctor Hstruct. rewrite (proj2 (is_null_false _) Hctor).
    rewrite bind_invoke, Hstruct. cbn beta iota.
    rewrite bind_invoke. reflexivity.
Qed.

(** [m_invoke_method] for a descriptor that fits, in the runtime's own
    answers. *)
Lemma m_invoke_method_searched (assembly_name name_space static_class_name
    method_name : string) (params : gpointer) (w : W) :
  (String.length (name_space ++ "." ++ static_class_name ++ ":" ++ method_name)
   < 256)%nat ->
  m_invoke_method rt uninit assembly_name name_space static_class_name
    method_name params w =
    if is_null
         (srch_assembly
            (search_method rt uninit assembly_name
               (name_space ++ "." ++ static_class_name ++ ":" ++ method_name) w))
    then
      Fatal ("M: Unable to find assembly " ++ assembly_name ++ "." ++ nl)
        (srch_found_state
           (search_method rt uninit assembly_name
              (name_space ++ "." ++ static_class_name ++ ":" ++ method_name) w))
        (find_log
           (srch_scan
              (search_method rt uninit assembly_name
                 (name_space ++ "." ++ static_class_name ++ ":" ++ method_name) w)))
    else
      after
        (search_log_of (name_space ++ "." ++ static_class_name ++ ":" ++ method_name)
           (search_method rt uninit assembly_name
              (name_space ++ "." ++ static_class_name ++ ":" ++ method_name) w))
        ((if negb
               (is_null
                  (srch_method
                     (search_method rt uninit assembly_name
                        (name_space ++ "." ++ static_class_name ++ ":" ++ method_name)
                        w)))
          then
            r <- invoke rt
              (mono_runtime_invoke
                 (srch_method
                    (search_method rt uninit assembly_name
                       (name_space ++ "." ++ static_class_name ++ ":" ++ method_name) w))
                 NULL params NULL) ;;
            ret {| MObject__priv := r |}
          else
            g_error ("M: Unable to invoke "
                     ++ (name_space ++ "." ++ static_class_name ++ ":" ++ method_name)
                     ++ "." ++ nl))
           (srch_state
              (search_method rt uninit assembly_name
                 (name_space ++ "." ++ static_class_name ++ ":" ++ method_name) w))).
Proof.
  intros Hfits.
  unfold m_invoke_method, get_method_desc, g_sprintf, search_method, search_log_of.
  rewrite (proj2 (Nat.ltb_lt _ _) Hfits).
  rewrite bind_run. cbn [ret Monad_M M_ret after app].
  rewrite bind_run, find_assembly_walk, after_nil.
  destruct (runtime_walk rt w) as [scan w0]. cbn [fst snd].
  set (assembly := found uninit assembly_name scan w).
  set (desc := name_space ++ "." ++ static_class_name ++ ":" ++ method_name).
  destruct (rt _ (mono_assembly_get_image assembly) w0) as [image w1] eqn:Himage.
  destruct (rt _ (mono_method_desc_new desc false) w1) as [method_desc w2] eqn:Hdesc.
  destruct (rt _ (mono_method_desc_search_in_image method_desc image) w2)
    as [method w3] eqn:Hmethod.
  destruct (rt _ (mono_method_desc_free method_desc) w3) as [[] w4] eqn:Hfree.
  cbn [srch_scan srch_found_state srch_assembly srch_image srch_desc srch_method
       srch_state].
  destruct (is_null assembly).
  - unfold g_error. cbn [after]. now rewrite app_nil_r.
  - rewrite bind_invoke, Himage. cbn [fst snd].
    rewrite bind_invoke, Hdesc. cbn [fst snd].
    rewrite bind_invoke, Hmethod. cbn [fst snd].
    rewrite bind_invoke, Hfree. cbn [fst snd].
    rewrite !after_after. unfold search_log.
    rewrite <- !app_assoc. cbn [app]. reflexivity.
Qed.

(** C4 (amended): the resolution failures the bridge itself detects are a
    constructor that [m_object] does not find by arity, and, in
    [m_invoke_method] (when the descriptor fits the 256-byte buffer), an
    assembly lookup that yields the null pointer or a method descriptor
    that is not found; each aborts the process with a diagnostic that names
    what is missing.  A property or a field that is not found is not
    detected: [m_object_get_property] and [m_object_set_field] hand
    whatever the lookup answered, null included, to
    [mono_property_get_value] and [mono_field_set_value], with no test and
    no diagnostic of their own; the outcome is then what the runtime makes
    of that call. *)
Theorem detected_resolution_failures :
  (forall (assembly_name name_space name : string) (argc : Z) (args : gpointer) (w : W),
     let r := resolve_object rt uninit assembly_name name_space name argc w in
     res_ctor r = NULL ->
     m_object rt uninit assembly_name name_space name argc args w =
       Fatal ("M: Unable to find constructor for type " ++ name ++ "." ++ nl)
         (res_state r) (resolution_log_of name_space name argc r))
  /\
  (forall (assembly_name name_space static_class_name method_name : string)
          (params : gpointer) (w : W),
     let desc := name_space ++ "." ++ static_class_name ++ ":" ++ method_name in
     let s := search_method rt uninit assembly_name desc w in
     (String.length desc < 256)%nat ->
     (srch_assembly s = NULL ->
      m_invoke_method rt uninit assembly_name name_space static_class_name
        method_name params w =
        Fatal ("M: Unable to find assembly " ++ assembly_name ++ "." ++ nl)
          (srch_found_state s) (find_log (srch_scan s)))
     /\
     (srch_assembly s <> NULL -> srch_method s = NULL ->
      m_invoke_method rt uninit assembly_name name_space static_class_name
        method_name params w =
        Fatal ("M: Unable to invoke " ++ desc ++ "." ++ nl)
          (srch_state s) (search_log_of desc s)))
  /\
  (forall (object : MObject) (property_name : string) (w : W),
     let member := fun klass => mono_class_get_property_from_name klass property_name in
     let l := lookup_member rt member object w in
     let receiver :=
       if ml_struct l
       then rt _ (mono_object_unbox (MObject__priv object)) (ml_state l)
       else (MObject__priv object, ml_state l) in
     let read :=
       rt _ (mono_property_get_value (ml_member l) (fst receiver) NULL NULL)
         (snd receiver) in
     m_object_get_property rt object property_name w =
       Returned {| MObject__priv := fst read |} (snd read)
         (member_log member object l ++
          (if ml_struct l
           then [mono_object_unbox (MObject__priv object) ~> fst receiver]
           else []) ++
          [mono_property_get_value (ml_member l) (fst receiver) NULL NULL ~> fst read])%list)
  /\
  (forall (object : MObject) (field_name : string) (value : gpointer) (w : W),
     let klass := rt _ (mono_object_get_class (MObject__priv object)) w in
     let field :=
       rt _ (mono_class_get_field_from_name (fst klass) field_name) (snd klass) in
     let type := rt _ (mono_class_get_type (fst klass)) (snd field) in
     let written :=
       rt _ (mono_field_set_value (MObject__priv object) (fst field) value) (snd type) in
     m_object_set_field rt object field_name value w =
       Returned tt (snd written)
         [mono_object_get_class (MObject__priv object) ~> fst klass;
          mono_class_get_field_from_name (fst klass) field_name ~> fst field;
          mono_class_get_type (fst klass) ~> fst type;
          mono_field_set_value (MObject__priv object) (fst field) value ~> tt]).
Proof.
  split; [|split; [|split]].
  - intros assembly_name name_space name argc args w r Hctor. subst r.
    rewrite m_object_resolved.
    rewrite (proj2 (is_null_true _) Hctor). cbn [after]. now rewrite app_nil_r.
  - intros assembly_name name_space static_class_name method_name params w desc s Hfits.
    subst s desc.
    rewrite (m_invoke_method_searched _ _ _ _ _ _ Hfits). split.
    + intros Hassembly. now rewrite (proj2 (is_null_true _) Hassembly).
    + intros Hassembly Hmethod.
      rewrite (proj2 (is_null_false _) Hassembly), (proj2 (is_null_true _) Hmethod).
      cbn [negb]. unfold g_error. cbn [after]. now rewrite app_nil_r.
  - intros object property_name w. cbv zeta.
    unfold m_object_get_property, lookup_member, member_log. plain.
    rewrite bind_invoke.
    destruct (rt ptr (mono_object_get_class (MObject__priv object)) w) as [klass w1].
    cbn [fst snd]. rewrite bind_invoke.
    destruct (rt ptr (mono_class_get_property_from_name klass property_name) w1)
      as [prop w2].
    cbn [fst snd]. rewrite bind_invoke.
    destruct (rt ptr (mono_class_get_type klass) w2) as [type w3].
    cbn [fst snd]. rewrite bind_invoke.
    destruct (rt bool (mono_type_is_struct type) w3) as [is_struct w4].
    cbn [fst snd ml_klass ml_member ml_type ml_struct ml_state].
    destruct is_struct; cbn beta iota.
    + rewrite bind_invoke.
      destruct (rt ptr (mono_object_unbox (MObject__priv object)) w4) as [raw w5].
      cbn [fst snd]. rewrite bind_invoke. reflexivity.
    + rewrite bind_invoke. reflexivity.
  - intros object field_name value w. cbv zeta.
    unfold m_object_set_field. plain.
    rewrite bind_invoke.
    destruct (rt ptr (mono_object_get_class (MObject__priv object)) w) as [klass w1].
    cbn [fst snd]. rewrite bind_invoke.
    destruct (rt ptr (mono_class_get_field_from_name klass field_name) w1) as [field w2].
    cbn [fst snd]. rewrite bind_invoke.
    destruct (rt ptr (mono_class_get_type klass) w2) as [type w3].
    cbn [fst snd]. unfold invoke.
    now destruct (rt unit (mono_field_set_value (MObject__priv object) field value) w3)
      as [[] w4].
Qed.

(** C10: on every object, property name and state, and whatever the
    runtime answers, [m_object_get_property] and
    [m_object_get_property_array] make the same calls, leave the same
    state and hold the same raw handle in their results. *)
Theorem get_property_array_same_computation (object : MObject)
    (property_name : string) (w : W) :
  map_outcome MObject__priv (m_object_get_property rt object property_name w) =
  map_outcome MArray__priv (m_object_get_property_array rt object property_name w).
Proof.
  unfold m_object_get_property, m_object_get_property_array.
  unfold bind, ret, Monad_M, M_bind, M_ret, invoke. cbn beta.
  repeat
    (match goal with
     | |- context [rt ?X ?e ?w] => is_var w; destruct (rt X e w) as [? ?]
     | |- context [if ?b then _ else _] => is_var b; destruct b
     end;
     cbn beta iota delta [after app]).
  all: reflexivity.
Qed.

(** C7: on a null handle [m_object_unbox] aborts with its diagnostic
    before any call into the runtime is made; on any other handle it
    returns what [mono_object_unbox] answers for it, the address of the
    object's raw storage. *)
Theorem m_object_unbox_null_guard (object : MObject) (w : W) :
  (MObject__priv object = NULL ->
   m_object_unbox rt object w = Fatal "M: Cannot unbox null object." w [])
  /\
  (MObject__priv object <> NULL ->
   m_object_unbox rt object w =
     Returned (fst (rt _ (mono_object_unbox (MObject__priv object)) w))
       (snd (rt _ (mono_object_unbox (MObject__priv object)) w))
       [mono_object_unbox (MObject__priv object)
          ~> fst (rt _ (mono_object_unbox (MObject__priv object)) w)]).
Proof.
  unfold m_object_unbox. split; intros Hpriv.
  - now rewrite (proj2 (is_null_true _) Hpriv).
  - rewrite (proj2 (is_null_false _) Hpriv). unfold invoke.
    now destruct (rt _ (mono_object_unbox (MObject__priv object)) w).
Qed.

(** C5: [m_domain_new] goes on to initialise the JIT exactly for the tags
    [M_RUNTIME_4_0] and [M_RUNTIME_4_5], with the version string
    "v4.0.30319" for both; for every other tag it aborts with "M: Invalid
    runtime version." and calls nothing in the runtime. *)
Theorem m_domain_new_runtime_tags (assembly_dir config_dir root_domain_name : string)
    (runtime : MRuntime) (w : W) :
  (runtime = M_RUNTIME_4_0 \/ runtime = M_RUNTIME_4_5 ->
   exists (domain : MonoDomain) (w1 : W),
     m_domain_new rt M_RUNTIME_4_0 M_RUNTIME_4_5 assembly_dir config_dir
       root_domain_name runtime w =
       Returned {| MDomain_domain := domain |} w1
         [mono_set_dirs assembly_dir config_dir ~> tt;
          mono_jit_init_version root_domain_name "v4.0.30319" ~> domain])
  /\
  (runtime <> M_RUNTIME_4_0 -> runtime <> M_RUNTIME_4_5 ->
   m_domain_new rt M_RUNTIME_4_0 M_RUNTIME_4_5 assembly_dir config_dir
     root_domain_name runtime w =
     Fatal "M: Invalid runtime version." w []).
Proof.
  unfold m_domain_new. split.
  - intros Htag.
    assert (Hversion :
      (if Z.eqb runtime M_RUNTIME_4_0 then ret "v4.0.30319"
       else if Z.eqb runtime M_RUNTIME_4_5 then ret "v4.0.30319"
       else g_error "M: Invalid runtime version.") = (ret "v4.0.30319" : M W string)).
    { destruct (Z.eqb_spec runtime M_RUNTIME_4_0); [reflexivity|].
      destruct (Z.eqb_spec runtime M_RUNTIME_4_5); [reflexivity|].
      destruct Htag; contradiction. }
    rewrite Hversion, bind_run. cbn [ret Monad_M M_ret]. rewrite after_nil.
    answer u w1. destruct u. answer domain w2.
    exists domain, w2. reflexivity.
  - intros H40 H45.
    rewrite (proj2 (Z.eqb_neq _ _) H40), (proj2 (Z.eqb_neq _ _) H45).
    reflexivity.
Qed.

Lemma to_uintptr_small (z : Z) : 0 <= z < 2 ^ 64 -> to_uintptr z = z.
Proof. intros Hz. unfold to_uintptr. now apply Z.mod_small. Qed.

(** Under the contract, the length read back is the length asked for, as
    long as it is a non-negative [gint]. *)
Lemma m_array_length_after_int32 (n : Z) (w : W) :
  array_length_contract rt ->
  0 <= n < 2 ^ 31 ->
  exists (w1 : W) (log : list call),
    (array <- m_array_int32 rt args_right_to_left n ;; m_array_length rt array) w
      = Returned n w1 log.
Proof.
  intros Hcontract Hn.
  assert (Hgint : to_gint n = n) by (unfold to_gint; rewrite Z.mod_small; lia).
  unfold m_array_int32, m_array_length. rewrite to_uintptr_small by lia.
  unfold bind, ret, Monad_M, M_bind, M_ret, invoke. cbn beta.
  destruct args_right_to_left; cbn beta iota.
  - destruct (rt _ mono_get_int32_class w) as [klass w1].
    cbn beta iota delta [after app fst snd].
    destruct (rt _ mono_domain_get w1) as [domain w2].
    cbn beta iota delta [after app fst snd].
    pose proof (Hcontract domain klass n w2 (proj1 Hn)) as Hlen.
    destruct (rt _ (mono_array_new domain klass n) w2) as [array w3].
    cbn [fst snd] in Hlen. cbn beta iota delta [after app fst snd MArray__priv].
    destruct (rt _ (mono_array_length array) w3) as [len w4].
    cbn [fst] in Hlen. subst len. cbn beta iota delta [after app].
    rewrite Hgint. eexists. eexists. reflexivity.
  - destruct (rt _ mono_domain_get w) as [domain w1].
    cbn beta iota delta [after app fst snd].
    destruct (rt _ mono_get_int32_class w1) as [klass w2].
    cbn beta iota delta [after app fst snd].
    pose proof (Hcontract domain klass n w2 (proj1 Hn)) as Hlen.
    destruct (rt _ (mono_array_new domain klass n) w2) as [array w3].
    cbn [fst snd] in Hlen. cbn beta iota delta [after app fst snd MArray__priv].
    destruct (rt _ (mono_array_length array) w3) as [len w4].
    cbn [fst] in Hlen. subst len. cbn beta iota delta [after app].
    rewrite Hgint. eexists. eexists. reflexivity.
Qed.

(** C8: for [n] one of 0, 1 and 1000, and a runtime that keeps the
    lengths of the arrays it creates, [m_array_length] of the array that
    [m_array_int32 n] returns is [n]. *)
Theorem m_array_length_of_int32 (n : Z) (w : W) :
  array_length_contract rt ->
  In n [0; 1; 1000] ->
  exists (w1 : W) (log : list call),
    (array <- m_array_int32 rt args_right_to_left n ;; m_array_length rt array) w
      = Returned n w1 log.
Proof.
  intros Hcontract Hn.
  apply m_array_length_after_int32; [exact Hcontract|].
  simpl in Hn. lia.
Qed.


End BridgeFacts.

(** * The bridge on the small runtime *)

Lemma sample_array_length_contract : array_length_contract Sample.rt.
Proof.
  intros domain eclass n w _. simpl. now rewrite Z.eqb_refl.
Qed.

Example find_assembly_engine :
  find_assembly Sample.rt Sample.uninit "Engine" Sample.w0 =
    Returned 3000 Sample.w0 (find_log sample_scan).
Proof. reflexivity. Qed.

Example m_object_vector3 :
  result_of (m_object Sample.rt Sample.uninit "Engine" "Engine" "Vector3" 3 555 Sample.w0)
  = Some {| MObject__priv := 10000 |}.
Proof. reflexivity. Qed.

Example m_invoke_method_init :
  result_of (m_invoke_method Sample.rt Sample.uninit "Engine" "Engine" "Game" "Init"
               555 Sample.w0)
  = Some {| MObject__priv := NULL |}.
Proof. reflexivity. Qed.

Example m_invoke_method_long_name :
  m_invoke_method Sample.rt Sample.uninit "Engine" long_name "Game" "Init" 555 Sample.w0
  = Overrun Sample.w0 [].
Proof. apply m_invoke_method_overrun. apply Nat.leb_le. vm_compute. reflexivity. Qed.

(** C1, as stated, fails: two loaded assemblies carry the image name
    "Engine"; the first of them is 2000 and [find_assembly] returns 3000. *)
Lemma find_assembly_not_first_match :
  log_of (find_assembly Sample.rt Sample.uninit "Engine" Sample.w0) = find_log sample_scan /\
  first_match "Engine" sample_scan = Some 2000 /\
  result_of (find_assembly Sample.rt Sample.uninit "Engine" Sample.w0) = Some 3000 /\
  result_of (find_assembly Sample.rt Sample.uninit "Engine" Sample.w0)
    <> first_match "Engine" sample_scan.
Proof.
  repeat split; try reflexivity.
  intros H. vm_compute in H. discriminate H.
Qed.

(** C2 on the code: no loaded assembly is named "Missing", and
    [find_assembly] returns what the uninitialised [query.assembly]
    happened to hold: 48879 on a fresh stack, and the assembly 3000
    (whose name is "Engine") where an earlier lookup left it there. Neither
    is the null pointer. *)
Theorem find_assembly_missing_returns_garbage :
  Forall (fun e => name_of e <> "Missing") sample_scan /\
  find_assembly Sample.rt Sample.uninit "Missing" Sample.w0 =
    Returned 48879 Sample.w0 (find_log sample_scan) /\
  find_assembly Sample.rt Sample.uninit "Missing" Sample.w_stale =
    Returned 3000 Sample.w_stale (find_log sample_scan) /\
  48879 <> NULL /\ 3000 <> NULL.
Proof.
  repeat split; try reflexivity; try discriminate.
  repeat constructor; discriminate.
Qed.

Lemma heap_memory :
  forall (a : ptr) (x : Z) (w : Heap.world), Heap.peek a (Heap.poke a x w) = x.
Proof.
  intros a x w. unfold Heap.peek, Heap.poke. simpl. now rewrite Z.eqb_refl.
Qed.


(** C4, as stated, fails: [Engine.Player] has no property "Armor", the
    lookup answers null, and [m_object_get_property] passes that null to
    [mono_property_get_value] and returns; no diagnostic, no abort. *)
Lemma property_not_found_not_fatal :
  m_object_get_property Sample.rt {| MObject__priv := 10000 |} "Armor" Sample.w_player =
    Returned {| MObject__priv := NULL |} Sample.w_player
      [mono_object_get_class 10000 ~> 6000;
       mono_class_get_property_from_name 6000 "Armor" ~> NULL;
       mono_class_get_type 6000 ~> 6008;
       mono_type_is_struct 6008 ~> false;
       mono_property_get_value NULL 10000 NULL NULL ~> NULL].
Proof. reflexivity. Qed.

(** C9 on the code: no loaded assembly is named "Missing", yet with the
    stale 3000 in the query [m_invoke_method] does not abort: it resolves
    "Engine.Game:Init" in the image of assembly 3000, invokes it and
    returns. *)
Theorem m_invoke_method_missing_assembly_not_fatal :
  Forall (fun e => name_of e <> "Missing") sample_scan /\
  m_invoke_method Sample.rt Sample.uninit "Missing" "Engine" "Game" "Init" 555
    Sample.w_stale =
    Returned {| MObject__priv := NULL |}
      {| Sample.next := 10064; Sample.objects := []; Sample.arrays := [];
         Sample.descs := [(10000, "Engine.Game:Init")]; Sample.junk := 3000 |}
      (find_log sample_scan ++
       [mono_assembly_get_image 3000 ~> 3001;
        mono_method_desc_new "Engine.Game:Init" false ~> 10000;
        mono_method_desc_search_in_image 10000 3001 ~> 6500;
        mono_method_desc_free 10000 ~> tt;
        mono_runtime_invoke 6500 NULL 555 NULL ~> NULL])%list.
Proof.
  split; [|reflexivity].
  repeat constructor; discriminate.
Qed.

(** C5 at the tags 0 and 1: tag 1 starts the JIT with "v4.0.30319", tag 7
    aborts. *)
Lemma m_domain_new_runtime_tags_witness :
  (exists (domain : MonoDomain) (w1 : Sample.world),
     m_domain_new Sample.rt 0 1 "lib" "etc" "FQuake3" 1 Sample.w0 =
       Returned {| MDomain_domain := domain |} w1
         [mono_set_dirs "lib" "etc" ~> tt;
          mono_jit_init_version "FQuake3" "v4.0.30319" ~> domain]) /\
  m_domain_new Sample.rt 0 1 "lib" "etc" "FQuake3" 7 Sample.w0 =
    Fatal "M: Invalid runtime version." Sample.w0 [].
Proof.
  split.
  - apply (proj1 (m_domain_new_runtime_tags Sample.rt 0 1 "lib" "etc" "FQuake3" 1
                    Sample.w0)).
    right. reflexivity.
  - apply (proj2 (m_domain_new_runtime_tags Sample.rt 0 1 "lib" "etc" "FQuake3" 7
                    Sample.w0)); discriminate.
Defined.

(** C7 at the null handle and at the object 10000. *)
Lemma m_object_unbox_null_guard_witness :
  m_object_unbox Sample.rt {| MObject__priv := NULL |} Sample.w_player =
    Fatal "M: Cannot unbox null object." Sample.w_player [] /\
  m_object_unbox Sample.rt {| MObject__priv := 10000 |} Sample.w_player =
    Returned 10016 Sample.w_player [mono_object_unbox 10000 ~> 10016].
Proof.
  split.
  - apply (proj1 (m_object_unbox_null_guard Sample.rt {| MObject__priv := NULL |}
                    Sample.w_player)).
    reflexivity.
  - apply (proj2 (m_object_unbox_null_guard Sample.rt {| MObject__priv := 10000 |}
                    Sample.w_player)).
    discriminate.
Defined.

(** C8 at [n = 1000] on the small runtime. *)
Lemma m_array_length_of_int32_witness :
  array_length_contract Sample.rt /\ In 1000 [0; 1; 1000] /\
  exists (w1 : Sample.world) (log : list call),
    (array <- m_array_int32 Sample.rt true 1000 ;; m_array_length Sample.rt array) Sample.w0 =
      Returned 1000 w1 log.
Proof.
  split; [exact sample_array_length_contract|].
  split; [simpl; auto|].
  apply (m_array_length_of_int32 Sample.rt true 1000 Sample.w0
           sample_array_length_contract).
  simpl. auto.
Defined.

(** C1 (amended) on the small runtime: the runtime's answers for "Engine"
    end with 2000 and then 3000, and 3000 comes back. *)
Lemma find_assembly_returns_last_match_witness :
  fst (runtime_walk Sample.rt Sample.w0)
    = ([(1000, 1001, "mscorlib"); (2000, 2001, "Engine")]
       ++ (3000, 3001, "Engine") :: [])%list /\
  find_assembly Sample.rt Sample.uninit "Engine" Sample.w0 =
    Returned 3000 Sample.w0 (find_log sample_scan).
Proof.
  split; [reflexivity|].
  apply (proj2 (find_assembly_returns_last_match Sample.rt Sample.uninit "Engine"
                  Sample.w0)
           [(1000, 1001, "mscorlib"); (2000, 2001, "Engine")] [] 3000 3001).
  - reflexivity.
  - intros e [].
Defined.

(** C4 (amended) on the small runtime: [Engine.Player] has no constructor
    with two arguments and [Engine.Game] has no method [Nope]; both calls
    abort with their diagnostic. *)
Lemma detected_resolution_failures_witness :
  res_ctor (resolve_object Sample.rt Sample.uninit "Engine" "Engine" "Player" 2 Sample.w0)
    = NULL /\
  srch_method (search_method Sample.rt Sample.uninit "Engine" "Engine.Game:Nope" Sample.w0)
    = NULL /\
  (exists (w1 : Sample.world) (log : list call),
     m_object Sample.rt Sample.uninit "Engine" "Engine" "Player" 2 555 Sample.w0 =
       Fatal ("M: Unable to find constructor for type " ++ "Player" ++ "." ++ nl) w1 log) /\
  (exists (w1 : Sample.world) (log : list call),
     m_invoke_method Sample.rt Sample.uninit "Engine" "Engine" "Game" "Nope" 555
       Sample.w0 =
       Fatal ("M: Unable to invoke " ++ ("Engine" ++ "." ++ "Game" ++ ":" ++ "Nope")
              ++ "." ++ nl) w1 log).
Proof.
  split; [reflexivity|]. split; [reflexivity|]. split.
  - eexists. eexists.
    exact (proj1 (detected_resolution_failures Sample.rt Sample.uninit)
             "Engine" "Engine" "Player" 2 555 Sample.w0 eq_refl).
  - assert (Hfits : (String.length ("Engine" ++ "." ++ "Game" ++ ":" ++ "Nope") < 256)%nat).
    { apply Nat.ltb_lt. reflexivity. }
    assert (Hfound : 3000 <> NULL) by discriminate.
    eexists. eexists.
    exact (proj2 (proj1 (proj2 (detected_resolution_failures Sample.rt Sample.uninit))
                    "Engine" "Engine" "Game" "Nope" 555 Sample.w0 Hfits)
             Hfound eq_refl).
Defined.

(** C6 on the small runtime: [Engine.Vector3] is a struct and its
    constructor runs on the unboxed storage 10016; [Engine.Player] is not
    and its constructor runs on the object 10000; a [Player] constructor
    with two arguments does not exist and the call aborts. *)
Lemma m_object_constructor_dispatch_witness :
  (exists (w1 : Sample.world) (log : list call),
     m_object Sample.rt Sample.uninit "Engine" "Engine" "Vector3" 3 555 Sample.w0 =
       Returned {| MObject__priv := 10000 |} w1
         (log ++ [mono_type_is_struct 5008 ~> true;
                  mono_object_unbox 10000 ~> 10016;
                  mono_runtime_invoke 5100 10016 555 NULL ~> NULL])%list) /\
  (exists (w1 : Sample.world) (log : list call),
     m_object Sample.rt Sample.uninit "Engine" "Engine" "Player" 0 555 Sample.w0 =
       Returned {| MObject__priv := 10000 |} w1
         (log ++ [mono_type_is_struct 6008 ~> false;
                  mono_runtime_invoke 6100 10000 555 NULL ~> NULL])%list) /\
  (exists (w1 : Sample.world) (log : list call),
     m_object Sample.rt Sample.uninit "Engine" "Engine" "Player" 2 555 Sample.w0 =
       Fatal ("M: Unable to find constructor for type " ++ "Player" ++ "." ++ nl) w1 log).
Proof.
  assert (H5100 : 5100 <> NULL) by discriminate.
  assert (H6100 : 6100 <> NULL) by discriminate.
  split; [|split].
  - eexists. eexists.
    exact (proj1 (proj2 (m_object_constructor_dispatch Sample.rt Sample.uninit
                           "Engine" "Engine" "Vector3" 3 555 Sample.w0))
             H5100 eq_refl).
  - eexists. eexists.
    exact (proj2 (proj2 (m_object_constructor_dispatch Sample.rt Sample.uninit
                           "Engine" "Engine" "Player" 0 555 Sample.w0))
             H6100 eq_refl).
  - eexists. eexists.
    exact (proj1 (m_object_constructor_dispatch Sample.rt Sample.uninit
                    "Engine" "Engine" "Player" 2 555 Sample.w0) eq_refl).
Defined.

(** * Further properties of the bridge *)

Lemma last_match_in (name : string) (scan : list scan_entry) (a : MonoAssembly) :
  last_match name scan = Some a -> exists image : MonoImage, In (a, image, name) scan.
Proof.
  induction scan as [|[[b image] n] scan IH]; simpl; [discriminate|].
  destruct (last_match name scan) as [c|].
  - intros Hc. destruct (IH Hc) as (i & Hin). exists i. now right.
  - unfold name_of, assembly_of. simpl.
    destruct (String.eqb_spec n name) as [->|_]; [|discriminate].
    intros [= ->]. exists image. now left.
Qed.

Lemma last_match_none_inv (name : string) (scan : list scan_entry) :
  last_match name scan = None -> forall e, In e scan -> name_of e <> name.
Proof.
  induction scan as [|e' scan IH]; simpl; intros Hnone e He; [destruct He|].
  destruct (last_match name scan) as [c|]; [discriminate|].
  destruct He as [->|He].
  - intros Hname. rewrite Hname, String.eqb_refl in Hnone. discriminate.
  - now apply IH.
Qed.

Lemma first_match_split (name : string) (pre post : list scan_entry) (e : scan_entry) :
  name_of e = name ->
  (forall e', In e' pre -> name_of e' <> name) ->
  first_match name (pre ++ e :: post)%list = Some (assembly_of e).
Proof.
  intros He Hpre. unfold first_match.
  induction pre as [|p pre IH]; simpl.
  - now rewrite He, String.eqb_refl.
  - destruct (String.eqb_spec (name_of p) name) as [Hp|_].
    + exfalso. apply (Hpre p); [now left | exact Hp].
    + apply IH. intros e' He'. apply Hpre. now right.
Qed.

Lemma string_length_append (s1 s2 : string) :
  String.length (s1 ++ s2) = (String.length s1 + String.length s2)%nat.
Proof.
  induction s1 as [|c s1 IH]; simpl; [reflexivity | now rewrite IH].
Qed.

Lemma to_gint_small (z : Z) : - 2 ^ 31 <= z < 2 ^ 31 -> to_gint z = z.
Proof.
  intros Hz. unfold to_gint. rewrite Z.mod_small; lia.
Qed.

Section MoreFacts.

Context {W : Type}.
Variable rt : forall X : Type, MonoE X -> W -> X * W.
Variable host : forall X : Type, HostE X -> W -> X * W.
Variable uninit : W -> ptr.
Variables M_RUNTIME_4_0 M_RUNTIME_4_5 : MRuntime.
Variable args_right_to_left : bool.

(** One call into the runtime at the head of the goal's computation. *)
Ltac next x w' :=
  rewrite (bind_invoke rt);
  match goal with
  | |- context [fst (rt ?X ?e ?w)] =>
      destruct (rt X e w) as [x w'] eqn:?; cbn beta iota delta [fst snd]
  end.

(** A run of [find_assembly], with the walk tied to the list of loaded
    assemblies the runtime answered. *)
Lemma find_assembly_loaded_run (name : string) (w : W) :
  exists (scan : list scan_entry) (w1 : W),
    map assembly_of scan = fst (rt _ mono_assembly_loaded w) /\
    find_assembly rt uninit name w =
      Returned (found uninit name scan w) w1 (find_log scan).
Proof.
  unfold find_assembly, mono_assembly_foreach.
  rewrite bind_run. unfold indeterminate at 1. rewrite after_nil.
  rewrite bind_run, (bind_invoke rt).
  destruct (rt _ mono_assembly_loaded w) as [l w0]. cbn [fst snd].
  destruct (g_list_foreach_scan rt l {| query_assembly := uninit w; query_name := name |} w0)
    as (scan & w1 & Hmap & Hrun).
  exists scan, w1. split; [exact Hmap|].
  rewrite Hrun. simpl. unfold find_log, found.
  now rewrite Hmap, app_nil_r.
Qed.


(** X2: when exactly one of the assemblies the runtime lists answers
    with the given image name, what [find_assembly] returns is the first
    match among the runtime's answers: with distinct image names the
    "first match" reading and the code agree. *)
Theorem find_assembly_unique_match (name : string) (w : W)
    (pre post : list scan_entry) (a : MonoAssembly) (image : MonoImage) :
  fst (runtime_walk rt w) = (pre ++ (a, image, name) :: post)%list ->
  (forall e, In e pre -> name_of e <> name) ->
  (forall e, In e post -> name_of e <> name) ->
  result_of (find_assembly rt uninit name w)
    = first_match name (fst (runtime_walk rt w)).
Proof.
  intros Hwalk Hpre Hpost.
  rewrite find_assembly_walk, Hwalk. cbn [result_of]. unfold found.
  set (l := last_match _ _).
  assert (l = Some a) as ->
    by exact (last_match_split name pre post (a, image, name) eq_refl Hpost).
  symmetry.
  exact (first_match_split name pre post (a, image, name) eq_refl Hpre).
Qed.

(** X3: [find_assembly] never stops early: it asks the image and the name
    of every assembly the runtime lists, once each and in the listed
    order, so a lookup costs one call plus two per loaded assembly,
    whether or not a match was met. *)
Theorem find_assembly_visits_all (name : string) (w : W) :
  exists scan : list scan_entry,
    log_of (find_assembly rt uninit name w) = find_log scan /\
    map assembly_of scan = fst (rt _ mono_assembly_loaded w) /\
    length (log_of (find_assembly rt uninit name w))
      = (1 + 2 * length (fst (rt _ mono_assembly_loaded w)))%nat.
Proof.
  destruct (find_assembly_loaded_run name w) as (scan & w1 & Hmap & Hrun).
  exists scan. rewrite Hrun. simpl log_of. repeat split; [exact Hmap|].
  rewrite <- Hmap, length_map. unfold find_log. simpl. f_equal.
  clear. induction scan as [|e scan IH]; simpl; [reflexivity|]. rewrite IH. lia.
Qed.

(** X4: with no assembly loaded, [find_assembly] makes the one listing
    call and returns the indeterminate value, whatever the name. *)
Theorem find_assembly_nothing_loaded (name : string) (w : W) :
  fst (rt _ mono_assembly_loaded w) = [] ->
  find_assembly rt uninit name w =
    Returned (uninit w) (snd (rt _ mono_assembly_loaded w))
      [mono_assembly_loaded ~> []].
Proof.
  intros Hnone.
  unfold find_assembly, mono_assembly_foreach.
  rewrite bind_run. unfold indeterminate at 1. rewrite after_nil.
  rewrite bind_run, (bind_invoke rt), Hnone. reflexivity.
Qed.

Lemma g_list_foreach_pure (Hpure : getters_pure rt) (w : W) (l : list MonoAssembly) :
  forall query : MAssemblyQuery,
    g_list_foreach l (foreach_assembly rt) query w =
      Returned
        {| query_assembly :=
             match last_match (query_name query) (map (entry_at rt w) l) with
             | Some a => a
             | None => query_assembly query
             end;
           query_name := query_name query |}
        w (scan_log (map (entry_at rt w) l)).
Proof.
  destruct (Hpure w) as (_ & Himage & Hname).
  induction l as [|a l IH]; intros query.
  - destruct query; reflexivity.
  - change (g_list_foreach (a :: l) (foreach_assembly rt) query w)
      with (bind (foreach_assembly rt a query)
              (fun q => g_list_foreach l (foreach_assembly rt) q) w).
    rewrite bind_run, foreach_assembly_eq.
    rewrite !Himage, !Hname, IH.
    cbn [map]. set (rest := map (entry_at rt w) l).
    unfold entry_at.
    cbn [scan_log last_match after app name_of assembly_of image_of fst snd].
    destruct (String.eqb _ (query_name query)) eqn:Hmatch; cbn [query_name query_assembly];
      destruct (last_match (query_name query) rest); reflexivity.
Qed.

(** X5: on a runtime whose listing, image and name getters only read,
    [find_assembly] leaves the state as it found it, and its result is
    read off the state alone: the last loaded assembly whose image name is
    the given one, else the indeterminate value. *)
Theorem find_assembly_read_only (name : string) (w : W) :
  getters_pure rt ->
  find_assembly rt uninit name w =
    Returned (found uninit name (snapshot rt w) w) w (find_log (snapshot rt w)).
Proof.
  intros Hpure.
  destruct (Hpure w) as (Hloaded & _).
  unfold find_assembly, mono_assembly_foreach.
  rewrite bind_run. unfold indeterminate at 1. rewrite after_nil.
  rewrite bind_run, (bind_invoke rt), Hloaded.
  rewrite (g_list_foreach_pure Hpure).
  cbn [after query_assembly query_name ret Monad_M M_ret app].
  unfold found, find_log, snapshot.
  rewrite app_nil_r, map_map.
  replace (map (fun x => assembly_of (entry_at rt w x)) (fst (rt _ mono_assembly_loaded w)))
    with (fst (rt _ mono_assembly_loaded w)); [reflexivity|].
  symmetry. apply map_id.
Qed.

(** X6: [m_invoke_method] overruns its 256-byte [name] buffer exactly
    when the three name parts together have 254 characters or more (the
    descriptor adds a dot, a colon and the terminating NUL), and it does
    so before any call into the runtime. *)
Theorem m_invoke_method_overruns_iff (assembly_name name_space static_class_name
    method_name : string) (params : gpointer) (w : W) :
  m_invoke_method rt uninit assembly_name name_space static_class_name
    method_name params w = Overrun w []
  <->
  (254 <= String.length name_space + String.length static_class_name
          + String.length method_name)%nat.
Proof.
  assert (Hlen :
    String.length (name_space ++ "." ++ static_class_name ++ ":" ++ method_name)
    = (String.length name_space + String.length static_class_name
       + String.length method_name + 2)%nat).
  { rewrite !string_length_append. simpl. lia. }
  split.
  - intros Hrun.
    destruct (Nat.lt_ge_cases
                (String.length (name_space ++ "." ++ static_class_name ++ ":" ++ method_name))
                256) as [Hfits|Hlong]; [|lia].
    exfalso.
    destruct (m_invoke_method_resolution rt uninit assembly_name name_space
                static_class_name method_name params w Hfits) as (scan & w1 & Hres).
    rewrite Hres in Hrun.
    match type of Hrun with after _ ?o = _ => destruct o end;
      simpl in Hrun; discriminate Hrun.
  - intros Hlong. apply m_invoke_method_overrun. lia.
Qed.

(** X7: [m_object_invoke] makes no check at all: it looks the method up
    by name and argument count on the class of the object and hands
    whatever the runtime answered (null included) to
    [mono_runtime_invoke], exactly once: with the unboxed storage as
    receiver when the runtime says the type is a struct, with the object
    itself when it says it is not; what that call answers is what it
    returns. *)
Theorem m_object_invoke_dispatch (object : MObject) (method_name : string) (argc : Z)
    (args : gpointer) (w : W) :
  let member := fun klass => mono_class_get_method_from_name klass method_name argc in
  let l := lookup_member rt member object w in
  let unboxed := rt _ (mono_object_unbox (MObject__priv object)) (ml_state l) in
  let on_unboxed :=
    rt _ (mono_runtime_invoke (ml_member l) (fst unboxed) args NULL) (snd unboxed) in
  let on_object :=
    rt _ (mono_runtime_invoke (ml_member l) (MObject__priv object) args NULL)
      (ml_state l) in
  (ml_struct l = true ->
   m_object_invoke rt object method_name argc args w =
     Returned {| MObject__priv := fst on_unboxed |} (snd on_unboxed)
       (member_log member object l ++
        [mono_object_unbox (MObject__priv object) ~> fst unboxed;
         mono_runtime_invoke (ml_member l) (fst unboxed) args NULL ~> fst on_unboxed])%list)
  /\
  (ml_struct l = false ->
   m_object_invoke rt object method_name argc args w =
     Returned {| MObject__priv := fst on_object |} (snd on_object)
       (member_log member object l ++
        [mono_runtime_invoke (ml_member l) (MObject__priv object) args NULL
           ~> fst on_object])%list).
Proof.
  cbv zeta. unfold m_object_invoke, lookup_member, member_log. plain.
  rewrite (bind_invoke rt).
  destruct (rt ptr (mono_object_get_class (MObject__priv object)) w) as [klass w1].
  cbn [fst snd]. rewrite (bind_invoke rt).
  destruct (rt ptr (mono_class_get_method_from_name klass method_name argc) w1)
    as [method w2].
  cbn [fst snd]. rewrite (bind_invoke rt).
  destruct (rt ptr (mono_class_get_type klass) w2) as [type w3].
  cbn [fst snd]. rewrite (bind_invoke rt).
  destruct (rt bool (mono_type_is_struct type) w3) as [is_struct w4].
  cbn [fst snd ml_klass ml_member ml_type ml_struct ml_state].
  split; intros ->; cbn beta iota.
  - rewrite (bind_invoke rt).
    destruct (rt ptr (mono_object_unbox (MObject__priv object)) w4) as [raw w5].
    cbn [fst snd]. rewrite (bind_invoke rt). reflexivity.
  - rewrite (bind_invoke rt). reflexivity.
Qed.

(** X8: [m_object_set_property] passes the value as the single element
    of the argument vector of [mono_property_set_value], on the property
    handle the runtime answered (used unchecked), with the same choice of
    receiver: the unboxed storage when the runtime says the type is a
    struct, the object itself when it says it is not. *)
Theorem m_object_set_property_dispatch (object : MObject) (property_name : string)
    (value : gpointer) (w : W) :
  let member := fun klass => mono_class_get_property_from_name klass property_name in
  let l := lookup_member rt member object w in
  let unboxed := rt _ (mono_object_unbox (MObject__priv object)) (ml_state l) in
  let on_unboxed :=
    rt _ (mono_property_set_value (ml_member l) (fst unboxed) [value] NULL)
      (snd unboxed) in
  let on_object :=
    rt _ (mono_property_set_value (ml_member l) (MObject__priv object) [value] NULL)
      (ml_state l) in
  (ml_struct l = true ->
   m_object_set_property rt object property_name value w =
     Returned tt (snd on_unboxed)
       (member_log member object l ++
        [mono_object_unbox (MObject__priv object) ~> fst unboxed;
         mono_property_set_value (ml_member l) (fst unboxed) [value] NULL ~> tt])%list)
  /\
  (ml_struct l = false ->
   m_object_set_property rt object property_name value w =
     Returned tt (snd on_object)
       (member_log member object l ++
        [mono_property_set_value (ml_member l) (MObject__priv object) [value] NULL
           ~> tt])%list).
Proof.
  cbv zeta. unfold m_object_set_property, lookup_member, member_log. plain.
  rewrite (bind_invoke rt).
  destruct (rt ptr (mono_object_get_class (MObject__priv object)) w) as [klass w1].
  cbn [fst snd]. rewrite (bind_invoke rt).
  destruct (rt ptr (mono_class_get_property_from_name klass property_name) w1)
    as [prop w2].
  cbn [fst snd]. rewrite (bind_invoke rt).
  destruct (rt ptr (mono_class_get_type klass) w2) as [type w3].
  cbn [fst snd]. rewrite (bind_invoke rt).
  destruct (rt bool (mono_type_is_struct type) w3) as [is_struct w4].
  cbn [fst snd ml_klass ml_member ml_type ml_struct ml_state].
  split; intros ->; cbn beta iota.
  - rewrite (bind_invoke rt).
    destruct (rt ptr (mono_object_unbox (MObject__priv object)) w4) as [raw w5].
    cbn [fst snd]. unfold invoke.
    now destruct (rt unit (mono_property_set_value prop raw [value] NULL) w5) as [[] w6].
  - unfold invoke.
    now destruct (rt unit (mono_property_set_value prop (MObject__priv object) [value]
                             NULL) w4) as [[] w5].
Qed.

(** The whole of a run of [m_array], in the runtime's own answers. *)
Lemma m_array_run (assembly_name name_space name : string) (size : Z) (w : W) :
  let walked := runtime_walk rt w in
  let assembly := found uninit assembly_name (fst walked) w in
  let image := rt _ (mono_assembly_get_image assembly) (snd walked) in
  let klass := rt _ (mono_class_from_name (fst image) name_space name) (snd image) in
  let domain := rt _ mono_domain_get (snd klass) in
  let made :=
    rt _ (mono_array_new (fst domain) (fst klass) (to_uintptr size)) (snd domain) in
  m_array rt uninit assembly_name name_space name size w =
    Returned {| MArray__priv := fst made |} (snd made)
      (find_log (fst walked) ++
       [mono_assembly_get_image assembly ~> fst image;
        mono_class_from_name (fst image) name_space name ~> fst klass;
        mono_domain_get ~> fst domain;
        mono_array_new (fst domain) (fst klass) (to_uintptr size) ~> fst made])%list.
Proof.
  cbv zeta. unfold m_array.
  rewrite bind_run, find_assembly_walk.
  destruct (runtime_walk rt w) as [scan w0]. cbn [fst snd].
  next image w1. next klass w2. next domain w3.
  rewrite (bind_invoke rt).
  destruct (rt _ (mono_array_new domain klass (to_uintptr size)) w3) as [array w4].
  cbn [fst snd ret Monad_M M_ret after app].
  reflexivity.
Qed.

(** X9: [m_array] never aborts and never tests what it resolved: the
    result of the assembly lookup (the indeterminate value when nothing
    matched) goes to [mono_assembly_get_image], the class the runtime
    answered (null included) goes to [mono_array_new], and the handle
    that call answers is returned.  The size reaches the runtime as a
    [uintptr_t]: unchanged when it is not negative, as 2^64 plus the size
    when it is. *)
Theorem m_array_unchecked (assembly_name name_space name : string) (size : Z) (w : W) :
  let walked := runtime_walk rt w in
  let assembly := found uninit assembly_name (fst walked) w in
  let image := rt _ (mono_assembly_get_image assembly) (snd walked) in
  let klass := rt _ (mono_class_from_name (fst image) name_space name) (snd image) in
  let domain := rt _ mono_domain_get (snd klass) in
  let made :=
    rt _ (mono_array_new (fst domain) (fst klass) (to_uintptr size)) (snd domain) in
  m_array rt uninit assembly_name name_space name size w =
    Returned {| MArray__priv := fst made |} (snd made)
      (find_log (fst walked) ++
       [mono_assembly_get_image assembly ~> fst image;
        mono_class_from_name (fst image) name_space name ~> fst klass;
        mono_domain_get ~> fst domain;
        mono_array_new (fst domain) (fst klass) (to_uintptr size) ~> fst made])%list
  /\
  (0 <= size < 2 ^ 31 -> to_uintptr size = size)
  /\
  (- 2 ^ 31 <= size < 0 -> to_uintptr size = 2 ^ 64 + size).
Proof.
  cbv zeta. split; [apply m_array_run|]. split; intros Hsize.
  - apply to_uintptr_small. lia.
  - unfold to_uintptr.
    replace size with ((2 ^ 64 + size) + (-1) * 2 ^ 64) at 1 by lia.
    rewrite Z.mod_add by lia. apply Z.mod_small. lia.
Qed.

(** X10: on a runtime that keeps the lengths of the arrays it creates,
    [m_array_length] of the array [m_array] returns is the size that was
    asked for, for every size a non-negative [gint] can hold. *)
Theorem m_array_length_of_m_array (assembly_name name_space name : string) (n : Z)
    (w : W) :
  array_length_contract rt ->
  0 <= n < 2 ^ 31 ->
  exists (w1 : W) (log : list call),
    (array <- m_array rt uninit assembly_name name_space name n ;;
     m_array_length rt array) w = Returned n w1 log.
Proof.
  intros Hcontract Hn.
  pose proof (m_array_run assembly_name name_space name n w) as Hrun.
  cbv zeta in Hrun. rewrite to_uintptr_small in Hrun by lia.
  rewrite bind_run, Hrun. unfold m_array_length. cbn [MArray__priv].
  rewrite (bind_invoke rt), (Hcontract _ _ n _ (proj1 Hn)).
  cbn [ret Monad_M M_ret after].
  rewrite to_gint_small by lia.
  eexists. eexists. reflexivity.
Qed.

(** X11: the same for [m_array_int32], for every size from 0 to
    2^31 - 1 and not only for 0, 1 and 1000. *)
Theorem m_array_length_of_any_int32 (n : Z) (w : W) :
  array_length_contract rt ->
  0 <= n < 2 ^ 31 ->
  exists (w1 : W) (log : list call),
    (array <- m_array_int32 rt args_right_to_left n ;; m_array_length rt array) w
      = Returned n w1 log.
Proof.
  intros Hcontract Hn. now apply m_array_length_after_int32.
Qed.

(** X12: [m_array_length] asks the runtime once and returns its answer
    converted to [gint]: the one value of the 32-bit signed range that
    differs from the runtime's length by a multiple of 2^32.  It is the
    length itself below 2^31, and the length minus 2^32, a negative
    number, for a length from 2^31 up to 2^32 - 1. *)
Theorem m_array_length_as_gint (object : MArray) (w : W) :
  let answer := rt _ (mono_array_length (MArray__priv object)) w in
  exists r : Z,
    m_array_length rt object w =
      Returned r (snd answer) [mono_array_length (MArray__priv object) ~> fst answer] /\
    - 2 ^ 31 <= r < 2 ^ 31 /\
    (r - fst answer) mod 2 ^ 32 = 0 /\
    (0 <= fst answer < 2 ^ 31 -> r = fst answer) /\
    (2 ^ 31 <= fst answer < 2 ^ 32 -> r = fst answer - 2 ^ 32).
Proof.
  cbv zeta. unfold m_array_length. rewrite (bind_invoke rt).
  destruct (rt _ (mono_array_length (MArray__priv object)) w) as [length w1].
  cbn [fst snd ret Monad_M M_ret after app].
  exists (to_gint length).
  split; [reflexivity|]. unfold to_gint.
  pose proof (Z.mod_pos_bound (length + 2 ^ 31) (2 ^ 32)) as Hbound.
  pose proof (Z.div_mod (length + 2 ^ 31) (2 ^ 32)) as Hdiv.
  repeat split.
  - lia.
  - lia.
  - replace ((length + 2 ^ 31) mod 2 ^ 32 - 2 ^ 31 - length)
      with (0 + (- ((length + 2 ^ 31) / 2 ^ 32)) * 2 ^ 32) by lia.
    now rewrite Z.mod_add by lia.
  - intros Hlen. rewrite Z.mod_small; lia.
  - intros Hlen.
    replace (length + 2 ^ 31) with ((length - 2 ^ 31) + 1 * 2 ^ 32) by lia.
    rewrite Z.mod_add by lia. rewrite Z.mod_small; lia.
Qed.

(** X13: [m_load_assembly] opens the assembly in the current domain and
    aborts, naming the assembly, exactly when the runtime could not open
    it; otherwise it returns and hands nothing back to the caller. *)
Theorem m_load_assembly_outcome (name : string) (w : W) :
  let domain := fst (rt _ mono_domain_get w) in
  let opened :=
    host _ (mono_domain_assembly_open domain name) (snd (rt _ mono_domain_get w)) in
  (fst opened = NULL ->
   m_load_assembly rt host name w =
     Fatal ("M: Unable to load " ++ name ++ " assembly." ++ nl) (snd opened)
       [mono_domain_get ~> domain])
  /\
  (fst opened <> NULL ->
   m_load_assembly rt host name w =
     Returned tt (snd opened) [mono_domain_get ~> domain]).
Proof.
  cbv zeta. unfold m_load_assembly.
  rewrite (bind_invoke rt).
  destruct (rt _ mono_domain_get w) as [domain w1]. cbn [fst snd].
  rewrite bind_run. unfold host_call. cbn beta.
  destruct (host _ (mono_domain_assembly_open domain name) w1) as [assembly w2].
  cbn [fst snd after app].
  split; intros Hopened.
  - rewrite Hopened. reflexivity.
  - destruct (is_null assembly) eqn:Hnull; [|reflexivity].
    apply Z.eqb_eq in Hnull. contradiction.
Qed.

(** X14: [m_domain_exec] aborts, naming the assembly, exactly when the
    runtime could not open it, and then nothing is executed; otherwise it
    runs the entry point in the domain of the handle with [argc - 1] and
    the argument vector without its first entry, and drops the exit code. *)
Theorem m_domain_exec_outcome (domain : MDomain) (name : string) (argc : Z)
    (argv : list string) (w : W) :
  let opened := host _ (mono_domain_assembly_open (MDomain_domain domain) name) w in
  (fst opened = NULL ->
   m_domain_exec host domain name argc argv w =
     Fatal ("M: Unable to load " ++ name ++ " assembly." ++ nl) (snd opened) [])
  /\
  (fst opened <> NULL ->
   m_domain_exec host domain name argc argv w =
     Returned tt
       (snd (host _ (mono_jit_exec (MDomain_domain domain) (fst opened) (argc - 1)
                       (tl argv))
               (snd opened)))
       []).
Proof.
  cbv zeta. unfold m_domain_exec.
  rewrite bind_run. unfold host_call. cbn beta.
  destruct (host _ (mono_domain_assembly_open (MDomain_domain domain) name) w)
    as [assembly w1].
  cbn [fst snd after app].
  split; intros Hopened.
  - rewrite Hopened. reflexivity.
  - destruct (is_null assembly) eqn:Hnull;
      [apply Z.eqb_eq in Hnull; contradiction|].
    cbn beta iota. rewrite bind_run.
    now destruct (host _ (mono_jit_exec (MDomain_domain domain) assembly (argc - 1)
                            (tl argv)) w1).
Qed.

(** X15: a domain made by [m_domain_new] with one of the two tags and then
    given to [m_domain_free] is torn down with [mono_jit_cleanup] on the
    very handle [mono_jit_init_version] answered. *)
Theorem m_domain_free_after_new (assembly_dir config_dir root_domain_name : string)
    (runtime : MRuntime) (w : W) :
  runtime = M_RUNTIME_4_0 \/ runtime = M_RUNTIME_4_5 ->
  exists (domain : MonoDomain) (w1 : W),
    m_domain_new rt M_RUNTIME_4_0 M_RUNTIME_4_5 assembly_dir config_dir
      root_domain_name runtime w =
      Returned {| MDomain_domain := domain |} w1
        [mono_set_dirs assembly_dir config_dir ~> tt;
         mono_jit_init_version root_domain_name "v4.0.30319" ~> domain] /\
    (d <- m_domain_new rt M_RUNTIME_4_0 M_RUNTIME_4_5 assembly_dir config_dir
            root_domain_name runtime ;;
     m_domain_free host d) w =
      Returned tt (snd (host _ (mono_jit_cleanup domain) w1))
        [mono_set_dirs assembly_dir config_dir ~> tt;
         mono_jit_init_version root_domain_name "v4.0.30319" ~> domain].
Proof.
  intros Htag.
  assert (Hnew : exists (domain : MonoDomain) (w1 : W),
    m_domain_new rt M_RUNTIME_4_0 M_RUNTIME_4_5 assembly_dir config_dir
      root_domain_name runtime w =
      Returned {| MDomain_domain := domain |} w1
        [mono_set_dirs assembly_dir config_dir ~> tt;
         mono_jit_init_version root_domain_name "v4.0.30319" ~> domain]).
  { unfold m_domain_new.
    assert (Hversion :
      (if Z.eqb runtime M_RUNTIME_4_0 then ret "v4.0.30319"
       else if Z.eqb runtime M_RUNTIME_4_5 then ret "v4.0.30319"
       else g_error "M: Invalid runtime version.") = (ret "v4.0.30319" : M W string)).
    { destruct (Z.eqb_spec runtime M_RUNTIME_4_0); [reflexivity|].
      destruct (Z.eqb_spec runtime M_RUNTIME_4_5); [reflexivity|].
      destruct Htag; contradiction. }
    rewrite Hversion, bind_run. cbn [ret Monad_M M_ret]. rewrite after_nil.
    next u w1. destruct u. next domain w2.
    exists domain, w2. reflexivity. }
  destruct Hnew as (domain & w1 & Hnew).
  exists domain, w1. split; [exact Hnew|].
  rewrite bind_run, Hnew. unfold m_domain_free, host_call. cbn [MDomain_domain].
  destruct (host _ (mono_jit_cleanup domain) w1) as [[] w2].
  reflexivity.
Qed.

(** With lookups that only read, the setter writes the resolved property
    of the resolved receiver. *)
Lemma m_object_set_property_pure (object : MObject) (property_name : string)
    (value : gpointer) (w : W) :
  (forall (X : Type) (e : MonoE X) (w : W), is_lookup e = true -> snd (rt X e w) = w) ->
  exists log : list call,
    m_object_set_property rt object property_name value w =
      Returned tt
        (snd (rt _ (mono_property_set_value (property_at rt w object property_name)
                      (receiver_at rt w object) [value] NULL) w))
        log.
Proof.
  intros Hpure. unfold m_object_set_property, property_at, receiver_at, class_at.
  rewrite (bind_invoke rt), (Hpure _ (mono_object_get_class _) w eq_refl).
  rewrite (bind_invoke rt), (Hpure _ (mono_class_get_property_from_name _ _) w eq_refl).
  rewrite (bind_invoke rt), (Hpure _ (mono_class_get_type _) w eq_refl).
  rewrite (bind_invoke rt), (Hpure _ (mono_type_is_struct _) w eq_refl).
  destruct (fst (rt _ (mono_type_is_struct _) w)).
  - rewrite (bind_invoke rt), (Hpure _ (mono_object_unbox _) w eq_refl).
    unfold invoke.
    destruct (rt _ (mono_property_set_value _ _ _ _) w) as [[] w1].
    eexists. reflexivity.
  - unfold invoke.
    destruct (rt _ (mono_property_set_value _ _ _ _) w) as [[] w1].
    eexists. reflexivity.
Qed.

(** The getter reads the resolved property of the resolved receiver. *)
Lemma m_object_get_property_pure (object : MObject) (property_name : string) (w : W) :
  (forall (X : Type) (e : MonoE X) (w : W), is_lookup e = true -> snd (rt X e w) = w) ->
  exists (w1 : W) (log : list call),
    m_object_get_property rt object property_name w =
      Returned
        {| MObject__priv :=
             fst (rt _ (mono_property_get_value (property_at rt w object property_name)
                          (receiver_at rt w object) NULL NULL) w) |}
        w1 log.
Proof.
  intros Hpure. unfold m_object_get_property, property_at, receiver_at, class_at.
  rewrite (bind_invoke rt), (Hpure _ (mono_object_get_class _) w eq_refl).
  rewrite (bind_invoke rt), (Hpure _ (mono_class_get_property_from_name _ _) w eq_refl).
  rewrite (bind_invoke rt), (Hpure _ (mono_class_get_type _) w eq_refl).
  rewrite (bind_invoke rt), (Hpure _ (mono_type_is_struct _) w eq_refl).
  destruct (fst (rt _ (mono_type_is_struct _) w)).
  - rewrite (bind_invoke rt), (Hpure _ (mono_object_unbox _) w eq_refl).
    rewrite (bind_invoke rt).
    eexists. eexists. reflexivity.
  - rewrite (bind_invoke rt).
    eexists. eexists. reflexivity.
Qed.

(** X16: on a runtime that keeps properties, reading a property through
    [m_object_get_property] right after writing it through
    [m_object_set_property] gives back the handle that was written: the
    two resolve the same property handle and choose the same receiver. *)
Theorem property_set_then_get (object : MObject) (property_name : string)
    (value : gpointer) (w : W) :
  keeps_properties rt ->
  result_of
    ((m_object_set_property rt object property_name value ;;
      m_object_get_property rt object property_name) w)
  = Some {| MObject__priv := value |}.
Proof.
  intros (Hpure & Hstable & Hstore).
  destruct (m_object_set_property_pure object property_name value w Hpure)
    as (log1 & Hset).
  rewrite bind_run, Hset.
  set (w1 := snd (rt _ (mono_property_set_value _ _ _ _) w)).
  destruct (m_object_get_property_pure object property_name w1 Hpure)
    as (w2 & log2 & Hget).
  rewrite Hget. cbn [after result_of]. do 2 f_equal.
  assert (Hclass : class_at rt w1 object = class_at rt w object).
  { unfold class_at, w1. now rewrite Hstable. }
  assert (Hprop : property_at rt w1 object property_name
                  = property_at rt w object property_name).
  { unfold property_at. rewrite Hclass. unfold w1. now rewrite Hstable. }
  assert (Hrecv : receiver_at rt w1 object = receiver_at rt w object).
  { unfold receiver_at. rewrite Hclass. unfold w1. now rewrite !Hstable. }
  rewrite Hprop, Hrecv. unfold w1. apply Hstore.
Qed.

(** X17: when the descriptor fits the buffer and the assembly lookup hands
    back a non-null pointer, [m_invoke_method] creates the descriptor
    "Namespace.Class:Method", searches it in the image of that assembly
    and frees it; when the runtime found a method it invokes that method
    once, with a null receiver and the given parameters, and returns what
    the call answers; when the runtime found none it aborts with "M:
    Unable to invoke" and the descriptor.  The descriptor is freed on both
    paths, before the invocation or the abort. *)
Theorem m_invoke_method_resolved (assembly_name name_space static_class_name
    method_name : string) (params : gpointer) (w : W) :
  let desc := name_space ++ "." ++ static_class_name ++ ":" ++ method_name in
  let s := search_method rt uninit assembly_name desc w in
  let invoked :=
    rt _ (mono_runtime_invoke (srch_method s) NULL params NULL) (srch_state s) in
  (String.length desc < 256)%nat ->
  srch_assembly s <> NULL ->
  (srch_method s <> NULL ->
   m_invoke_method rt uninit assembly_name name_space static_class_name
     method_name params w =
     Returned {| MObject__priv := fst invoked |} (snd invoked)
       (search_log_of desc s ++
        [mono_runtime_invoke (srch_method s) NULL params NULL ~> fst invoked])%list)
  /\
  (srch_method s = NULL ->
   m_invoke_method rt uninit assembly_name name_space static_class_name
     method_name params w =
     Fatal ("M: Unable to invoke " ++ desc ++ "." ++ nl) (srch_state s)
       (search_log_of desc s)).
Proof.
  cbv zeta. intros Hfits Hassembly.
  rewrite (m_invoke_method_searched rt uninit _ _ _ _ _ _ Hfits).
  rewrite (proj2 (is_null_false _) Hassembly).
  split; intros Hmethod.
  - rewrite (proj2 (is_null_false _) Hmethod). cbn [negb].
    rewrite (bind_invoke rt). reflexivity.
  - rewrite (proj2 (is_null_true _) Hmethod). cbn [negb].
    unfold g_error. cbn [after]. now rewrite app_nil_r.
Qed.

End MoreFacts.

(** * The further properties on the small runtime *)

Lemma sample_getters_pure : getters_pure Sample.rt.
Proof. intros w. repeat split. Qed.

Lemma store_keeps_properties : keeps_properties Store.rt.
Proof.
  repeat split.
  - intros X e [w st] Hlookup. destruct e; try discriminate Hlookup; reflexivity.
  - intros X e prop obj params [w st] Hlookup.
    destruct e; try discriminate Hlookup; reflexivity.
  - intros prop obj value [w st]. unfold Store.rt. simpl.
    now rewrite !Z.eqb_refl.
Qed.


(** X2 on the small runtime: of the three assemblies it lists only 1000
    is named "mscorlib", and 1000 comes back. *)
Lemma find_assembly_unique_match_witness :
  fst (runtime_walk Sample.rt Sample.w0)
    = ([] ++ (1000, 1001, "mscorlib")
          :: [(2000, 2001, "Engine"); (3000, 3001, "Engine")])%list /\
  first_match "mscorlib" (fst (runtime_walk Sample.rt Sample.w0)) = Some 1000 /\
  result_of (find_assembly Sample.rt Sample.uninit "mscorlib" Sample.w0)
    = first_match "mscorlib" (fst (runtime_walk Sample.rt Sample.w0)).
Proof.
  split; [reflexivity|]. split; [reflexivity|].
  apply (find_assembly_unique_match Sample.rt Sample.uninit "mscorlib" Sample.w0
           [] [(2000, 2001, "Engine"); (3000, 3001, "Engine")] 1000 1001).
  - reflexivity.
  - intros e [].
  - intros e [<-|[<-|[]]]; discriminate.
Defined.

(** X4 on the small runtime with nothing loaded. *)
Lemma find_assembly_nothing_loaded_witness :
  fst (bare_rt _ mono_assembly_loaded Sample.w0) = [] /\
  find_assembly bare_rt Sample.uninit "Engine" Sample.w0 =
    Returned 48879 Sample.w0 [mono_assembly_loaded ~> []].
Proof.
  split; [reflexivity|].
  exact (find_assembly_nothing_loaded bare_rt Sample.uninit "Engine" Sample.w0 eq_refl).
Defined.

(** X5 on the small runtime, whose getters only read. *)
Lemma find_assembly_read_only_witness :
  getters_pure Sample.rt /\
  find_assembly Sample.rt Sample.uninit "Engine" Sample.w0 =
    Returned 3000 Sample.w0 (find_log sample_scan).
Proof.
  split; [exact sample_getters_pure|].
  exact (find_assembly_read_only Sample.rt Sample.uninit "Engine" Sample.w0
           sample_getters_pure).
Defined.

(** X17 on the small runtime: "Engine.Game:Init" is found in the image
    3001 of the assembly 3000 and invoked with a null receiver;
    "Engine.Game:Nope" is not found and the call aborts, after the
    descriptor was freed. *)
Lemma m_invoke_method_resolved_witness :
  m_invoke_method Sample.rt Sample.uninit "Engine" "Engine" "Game" "Init" 555 Sample.w0 =
    Returned {| MObject__priv := NULL |}
      {| Sample.next := 10064; Sample.objects := []; Sample.arrays := [];
         Sample.descs := [(10000, "Engine.Game:Init")]; Sample.junk := 48879 |}
      (find_log sample_scan ++
       [mono_assembly_get_image 3000 ~> 3001;
        mono_method_desc_new "Engine.Game:Init" false ~> 10000;
        mono_method_desc_search_in_image 10000 3001 ~> 6500;
        mono_method_desc_free 10000 ~> tt;
        mono_runtime_invoke 6500 NULL 555 NULL ~> NULL])%list /\
  m_invoke_method Sample.rt Sample.uninit "Engine" "Engine" "Game" "Nope" 555 Sample.w0 =
    Fatal ("M: Unable to invoke " ++ "Engine.Game:Nope" ++ "." ++ nl)
      {| Sample.next := 10064; Sample.objects := []; Sample.arrays := [];
         Sample.descs := [(10000, "Engine.Game:Nope")]; Sample.junk := 48879 |}
      (find_log sample_scan ++
       [mono_assembly_get_image 3000 ~> 3001;
        mono_method_desc_new "Engine.Game:Nope" false ~> 10000;
        mono_method_desc_search_in_image 10000 3001 ~> NULL;
        mono_method_desc_free 10000 ~> tt])%list.
Proof.
  assert (Hinit : (String.length ("Engine" ++ "." ++ "Game" ++ ":" ++ "Init") < 256)%nat).
  { apply Nat.ltb_lt. reflexivity. }
  assert (Hnope : (String.length ("Engine" ++ "." ++ "Game" ++ ":" ++ "Nope") < 256)%nat).
  { apply Nat.ltb_lt. reflexivity. }
  assert (H3000 : 3000 <> NULL) by discriminate.
  assert (H6500 : 6500 <> NULL) by discriminate.
  split.
  - exact (proj1 (m_invoke_method_resolved Sample.rt Sample.uninit "Engine" "Engine"
                    "Game" "Init" 555 Sample.w0 Hinit H3000) H6500).
  - exact (proj2 (m_invoke_method_resolved Sample.rt Sample.uninit "Engine" "Engine"
                    "Game" "Nope" 555 Sample.w0 Hnope H3000) eq_refl).
Defined.

(** X10 on the small runtime: an array of 12 [Engine.Vector3]. *)
Lemma m_array_length_of_m_array_witness :
  array_length_contract Sample.rt /\ 0 <= 12 < 2 ^ 31 /\
  exists (w1 : Sample.world) (log : list call),
    (array <- m_array Sample.rt Sample.uninit "Engine" "Engine" "Vector3" 12 ;;
     m_array_length Sample.rt array) Sample.w0 = Returned 12 w1 log.
Proof.
  assert (Hn : 0 <= 12 < 2 ^ 31) by (split; [discriminate | reflexivity]).
  split; [exact sample_array_length_contract|]. split; [exact Hn|].
  exact (m_array_length_of_m_array Sample.rt Sample.uninit "Engine" "Engine" "Vector3"
           12 Sample.w0 sample_array_length_contract Hn).
Defined.

(** X11 on the small runtime: 65536 integers. *)
Lemma m_array_length_of_any_int32_witness :
  array_length_contract Sample.rt /\ 0 <= 65536 < 2 ^ 31 /\
  exists (w1 : Sample.world) (log : list call),
    (array <- m_array_int32 Sample.rt false 65536 ;; m_array_length Sample.rt array)
      Sample.w0 = Returned 65536 w1 log.
Proof.
  assert (Hn : 0 <= 65536 < 2 ^ 31) by (split; [discriminate | reflexivity]).
  split; [exact sample_array_length_contract|]. split; [exact Hn|].
  exact (m_array_length_of_any_int32 Sample.rt false 65536 Sample.w0
           sample_array_length_contract Hn).
Defined.

(** X15 at the tags 0 and 1. *)
Lemma m_domain_free_after_new_witness :
  exists (domain : MonoDomain) (w1 : Sample.world),
    m_domain_new Sample.rt 0 1 "lib" "etc" "FQuake3" 0 Sample.w0 =
      Returned {| MDomain_domain := domain |} w1
        [mono_set_dirs "lib" "etc" ~> tt;
         mono_jit_init_version "FQuake3" "v4.0.30319" ~> domain] /\
    (d <- m_domain_new Sample.rt 0 1 "lib" "etc" "FQuake3" 0 ;;
     m_domain_free sample_host d) Sample.w0 =
      Returned tt (snd (sample_host _ (mono_jit_cleanup domain) w1))
        [mono_set_dirs "lib" "etc" ~> tt;
         mono_jit_init_version "FQuake3" "v4.0.30319" ~> domain].
Proof.
  apply (m_domain_free_after_new Sample.rt sample_host 0 1 "lib" "etc" "FQuake3" 0
           Sample.w0).
  left. reflexivity.
Defined.

(** X16 on the runtime with a property store: "Health" of the player is
    written and read back. *)
Lemma property_set_then_get_witness :
  keeps_properties Store.rt /\
  result_of
    ((m_object_set_property Store.rt {| MObject__priv := 10000 |} "Health" 77 ;;
      m_object_get_property Store.rt {| MObject__priv := 10000 |} "Health")
       Store.w_player)
  = Some {| MObject__priv := 77 |}.
Proof.
  split; [exact store_keeps_properties|].
  exact (property_set_then_get Store.rt {| MObject__priv := 10000 |} "Health" 77
           Store.w_player store_keeps_properties).
Defined.

Example m_load_assembly_missing :
  m_load_assembly Sample.rt sample_host "Nope.dll" Sample.w0 =
    Fatal ("M: Unable to load Nope.dll assembly." ++ nl) Sample.w0 [mono_domain_get ~> 100].
Proof. reflexivity. Qed.

Example m_domain_exec_game :
  m_domain_exec sample_host {| MDomain_domain := 100 |} "Game.exe" 3
    ["fquake3"; "+map"; "q3dm1"] Sample.w0 = Returned tt Sample.w0 [].
Proof. reflexivity. Qed.
